(** * Streamlit Pedalboard demo: a model of [app.py]

    The script [app.py] is a single-pass adapter: it reads widget state,
    loads an audio buffer, assembles a chain of effect-parameter objects,
    hands chain and buffer to the Pedalboard engine and shows the result.

    The development has three parts.

    - [Numpy]: the array arithmetic of [_normalize_16_bit].  Samples are
      IEEE values: a finite value, one of the two infinities, or NaN.
      Finite values are kept as exact rationals, so the rounding of binary
      floating point and the sign of zero are not modelled; the special
      values follow IEEE 754.
    - [App]: [main] and its helpers, written in a small language of
      external calls ([prog]).  Every call of Streamlit, librosa,
      matplotlib, scipy and the Pedalboard engine is an event answered by
      the environment, which may also answer with an exception.
    - [Page]: the last lines of the script, which configure and title the
      page before they run [main]. *)

From Stdlib Require Import ZArith QArith Qabs List String Bool Lia.
Import ListNotations.

Local Open Scope Z_scope.

(** ** Results of fallible calls *)

(** A Python exception, by class name. *)
Definition exn := string.

Inductive result (A : Type) : Type :=
| OK (a : A)
| Raise (e : exn).

Arguments OK {A} a.
Arguments Raise {A} e.

(** ** Numpy arithmetic on sample buffers *)

Module Numpy.

Inductive npfloat : Type :=
| Finite (q : Q)
| PosInf
| NegInf
| NaN.

(** A one-dimensional floating point array. *)
Definition ndarray := list npfloat.

Definition is_zero (x : npfloat) : bool :=
  match x with
  | Finite q => Qeq_bool q 0
  | _ => false
  end.

Definition is_finite (x : npfloat) : bool :=
  match x with
  | Finite _ => true
  | _ => false
  end.

(** The sign of a value that is not NaN; zero counts as positive. *)
Definition negative (x : npfloat) : bool :=
  match x with
  | Finite q => Qnum q <? 0
  | NegInf => true
  | _ => false
  end.

Definition signed_inf (neg : bool) : npfloat :=
  if neg then NegInf else PosInf.

(** [np.abs] on one element. *)
Definition np_abs (x : npfloat) : npfloat :=
  match x with
  | Finite q => Finite (Qabs q)
  | PosInf | NegInf => PosInf
  | NaN => NaN
  end.

(** [np.maximum] on two elements: NaN wins. *)
Definition np_maximum (x y : npfloat) : npfloat :=
  match x, y with
  | NaN, _ | _, NaN => NaN
  | PosInf, _ | _, PosInf => PosInf
  | NegInf, z | z, NegInf => z
  | Finite a, Finite b => if Qle_bool a b then Finite b else Finite a
  end.

(** [np.max] of an array: a reduction without identity, so the empty
    array raises [ValueError]. *)
Definition np_max (a : ndarray) : result npfloat :=
  match a with
  | [] => Raise "ValueError"%string
  | x :: xs => OK (fold_left np_maximum xs x)
  end.

(** Element division [x / y]. Division by zero does not raise in numpy:
    it yields NaN for 0/0 and an infinity otherwise. *)
Definition np_divide (x y : npfloat) : npfloat :=
  match x, y with
  | NaN, _ | _, NaN => NaN
  | Finite a, Finite b =>
      if Qeq_bool b 0
      then (if Qeq_bool a 0 then NaN else signed_inf (negative x))
      else Finite (a / b)
  | Finite _, _ => Finite 0
  | _, Finite _ => signed_inf (xorb (negative x) (negative y))
  | _, _ => NaN
  end.

(** Element product [x * y]. *)
Definition np_multiply (x y : npfloat) : npfloat :=
  match x, y with
  | NaN, _ | _, NaN => NaN
  | Finite a, Finite b => Finite (a * b)
  | Finite a, _ | _, Finite a =>
      if Qeq_bool a 0 then NaN
      else signed_inf (xorb (negative x) (negative y))
  | _, _ => signed_inf (xorb (negative x) (negative y))
  end.

(** Truncation toward zero, the rounding of a float-to-integer cast. *)
Definition trunc (q : Q) : Z := Z.quot (Qnum q) (Zpos (Qden q)).

Definition int16_min : Z := -32768.
Definition int16_max : Z := 32767.

Definition in_int16 (z : Z) : Prop := int16_min <= z <= int16_max.

Definition in_int16b (z : Z) : bool :=
  (int16_min <=? z) && (z <=? int16_max).

(** Two's complement reduction to 16 bits. *)
Definition wrap16 (z : Z) : Z := (z + 32768) mod 65536 - 32768.

Section Cast.

(** What the platform stores when a value with no 16-bit representation
    (NaN, an infinity, or a finite value out of range) is cast: the C
    conversion leaves it undefined, and numpy only warns. *)
Variable invalid_cast : npfloat -> Z.

(** [np.int16(x)] on one element. *)
Definition np_int16 (x : npfloat) : Z :=
  match x with
  | Finite q =>
      if in_int16b (trunc q) then trunc q else wrap16 (invalid_cast x)
  | _ => wrap16 (invalid_cast x)
  end.

(** The value scaled by [_normalize_16_bit] before the cast:
    [x / m * 32767 * 0.9], evaluated left to right. *)
Definition scaled (m x : npfloat) : npfloat :=
  np_multiply (np_multiply (np_divide x m) (Finite 32767)) (Finite (9 # 10)).

(** [_normalize_16_bit] *)
Definition _normalize_16_bit (audio_data : ndarray) : result (list Z) :=
  match np_max (map np_abs audio_data) with
  | Raise e => Raise e
  | OK m => OK (map (fun x => np_int16 (scaled m x)) audio_data)
  end.

End Cast.


(** The finite value computed for sample [q] when the peak is [m]. *)
Definition scaled_Q (m q : Q) : Q := (q / m * 32767 * (9 # 10))%Q.

(** The peak of a nonempty run of rationals, seeded with [a]. *)
Definition peak (a : Q) (qs : list Q) : Q :=
  fold_left (fun u v => if Qle_bool u (Qabs v) then Qabs v else u) qs a.

(** The 16-bit values computed from finite samples, in exact arithmetic:
    each sample over the peak, times 32767, times 0.9, truncated. *)
Definition normalized_Q (qs : list Q) : list Z :=
  match qs with
  | [] => []
  | a :: r => map (fun q => trunc (scaled_Q (peak (Qabs a) r) q)) qs
  end.

Definition nonzero (x : npfloat) : bool := negb (is_zero x).

Definition is_nan (x : npfloat) : bool :=
  match x with
  | NaN => true
  | _ => false
  end.

Definition is_inf (x : npfloat) : bool :=
  match x with
  | PosInf | NegInf => true
  | _ => false
  end.

(** [-x], element by element. *)
Definition np_negative (x : npfloat) : npfloat :=
  match x with
  | Finite q => Finite (- q)
  | PosInf => NegInf
  | NegInf => PosInf
  | NaN => NaN
  end.

End Numpy.

(** ** The application *)

Module App.

Import Numpy.
Local Open Scope string_scope.

(** *** Objects of the libraries *)

(** A file handed over by the uploader widget. *)
Record UploadedFile : Type := {
  upload_name : string;
  upload_bytes : string
}.

(** What [librosa.load] reads from. *)
Inductive audio_source : Type :=
| Path (p : string)
| FileObj (f : UploadedFile).

(** Effect-parameter objects. The constructor of each record is the
    class called with every keyword given. *)
Record Compressor_t : Type := Compressor {
  threshold_db : Q;
  ratio : Q;
  attack_ms : Q;
  release_ms : Q
}.

Record Gain_t : Type := Gain {
  gain_db : Q
}.

Record Reverb_t : Type := Reverb {
  room_size : Q;
  damping : Q;
  wet_level : Q;
  dry_level : Q;
  width : Q;
  freeze_mode : Q
}.

(** The eight classes that [app.py] imports and never instantiates. *)
Inductive unused_class : Type :=
| Chorus | Convolution | Distortion | HighpassFilter
| LadderFilter | Limiter | LowpassFilter | Phaser.

Inductive Plugin : Type :=
| PCompressor (c : Compressor_t)
| PGain (g : Gain_t)
| PReverb (r : Reverb_t)
| PUnused (k : unused_class).

(** The objects that [Compressor()], [Gain()] and [Reverb()] build when
    called without argument: the defaults of the Pedalboard library. *)
Record defaults : Type := {
  new_Compressor : Compressor_t;
  new_Gain : Gain_t;
  new_Reverb : Reverb_t
}.

(** A board: the ordered plugin list and the sample rate it was built
    with. *)
Record Pedalboard_t : Type := Pedalboard {
  plugins : list Plugin;
  sample_rate : Z
}.

(** [board.append(plugin)] *)
Definition append (board : Pedalboard_t) (plugin : Plugin) : Pedalboard_t :=
  Pedalboard (plugins board ++ [plugin]) (sample_rate board).

(** A matplotlib figure: its size and the waveforms drawn on its axes. *)
Record Figure : Type := {
  figsize : Z * Z;
  waves : list (ndarray * Z)
}.

(** The sample data of a WAV image: the float buffer as it is, or the
    16-bit integers of [_normalize_16_bit]. *)
Inductive wav_samples : Type :=
| Floats (a : ndarray)
| Int16s (a : list Z).

Record wav_image : Type := {
  wav_rate : Z;
  wav_data : wav_samples
}.

(** An in-memory stream: the WAV images written to it, oldest first. *)
Definition BytesIO := list wav_image.

(** Where a widget is placed. *)
Inductive container : Type :=
| Page
| Sidebar
| Column (i : nat)
| Expander (label : string).

Inductive writable : Type :=
| WText (s : string)
| WBoard (b : Pedalboard_t).

(** *** External calls *)

(** One constructor per library call of the script, indexed by the type
    of its answer. *)
Inductive event : Type -> Type :=
| st_checkbox (c : container) (label : string) (value : bool) : event bool
| st_markdown (c : container) (body : string) : event unit
| st_subheader (c : container) (body : string) : event unit
| st_caption (c : container) (body : string) : event unit
| st_columns (spec : list Z) : event unit
| st_file_uploader (c : container) (label : string) (type : list string)
  : event (option UploadedFile)
| st_pyplot (c : container) (fig : Figure) : event unit
| st_audio (c : container) (data : BytesIO) : event unit
| st_write (c : container) (x : writable) : event unit
| st_expander (label : string) : event unit
| st_warning (c : container) (body : string) : event unit
| st_slider (c : container) (label : string) (min_value max_value value : Q)
  : event Q
| st_download_button (c : container) (label : string) (data : BytesIO)
    (file_name mime : string) : event bool
| librosa_example (key : string) (hq : bool) : event string
| librosa_load (path : audio_source) (sr : Z) : event (ndarray * Z)
| plt_subplots (size : Z * Z) : event unit
| librosa_display_waveshow (y : ndarray) (sr : Z) : event unit
| wavfile_write (rate : Z) (data : wav_samples) : event unit
| Pedalboard_call (board : Pedalboard_t) (audio : ndarray) : event ndarray.

(** *** Programs *)

(** A program is a tree of external calls. There is no construct that
    catches an exception, as there is no [try] in [app.py]. *)
Inductive prog (A : Type) : Type :=
| Ret (a : A)
| Throw (e : exn)
| Call {X : Type} (ev : event X) (k : X -> prog A).

Arguments Ret {A} a.
Arguments Throw {A} e.
Arguments Call {A X} ev k.

Fixpoint bind {A B : Type} (p : prog A) (f : A -> prog B) : prog B :=
  match p with
  | Ret a => f a
  | Throw e => Throw e
  | Call ev k => Call ev (fun x => bind (k x) f)
  end.

Definition call {X : Type} (ev : event X) : prog X := Call ev Ret.

Definition lift {A : Type} (r : result A) : prog A :=
  match r with
  | OK a => Ret a
  | Raise e => Throw e
  end.

Declare Scope prog_scope.
Delimit Scope prog_scope with prog.
Bind Scope prog_scope with prog.

Notation "x <- p ;; q" := (bind p (fun x => q))
  (at level 61, p at next level, right associativity) : prog_scope.
Notation "' pat <- p ;; q" := (bind p (fun x => match x with pat => q end))
  (at level 61, pat pattern, p at next level, right associativity) : prog_scope.
Notation "p ;; q" := (bind p (fun _ => q))
  (at level 61, right associativity) : prog_scope.

Local Open Scope prog_scope.

(** *** Running a program *)

(** One call with the answer it got. *)
Inductive entry : Type :=
| Entry {X : Type} (ev : event X) (r : result X).

Definition trace := list entry.

Section Run.

(** The environment: a state [W] and, for each call, the next state and
    the answer. *)
Variable W : Type.
Variable h : forall X : Type, event X -> W -> W * result X.

Fixpoint run {A : Type} (p : prog A) (w : W) : W * trace * result A :=
  match p with
  | Ret a => (w, [], OK a)
  | Throw e => (w, [], Raise e)
  | Call ev k =>
      match h _ ev w with
      | (w1, OK x) =>
          let '(w2, t, r) := run (k x) w1 in
          (w2, Entry ev (OK x) :: t, r)
      | (w1, Raise e) => (w1, [Entry ev (Raise e)], Raise e)
      end
  end.

Definition trace_of {A : Type} (p : prog A) (w : W) : trace :=
  snd (fst (run p w)).

Definition result_of {A : Type} (p : prog A) (w : W) : result A :=
  snd (run p w).

End Run.

(** *** The script *)

(** The answers of the eleven sidebar checkboxes. *)
Record enables : Type := {
  enable_convolution : bool;
  enable_compressor : bool;
  enable_chorus : bool;
  enable_distortion : bool;
  enable_gain : bool;
  enable_hp : bool;
  enable_ld : bool;
  enable_limiter : bool;
  enable_lp : bool;
  enable_phaser : bool;
  enable_reverb : bool
}.

Section Script.

Variable lib : defaults.
Variable invalid_cast : npfloat -> Z.

(** [_audio_to_virtualfile]: the stream is created empty by
    [io.BytesIO()] and holds one WAV image after [wavfile.write]. *)
Definition _audio_to_virtualfile (audio_data : ndarray) (normalize_16 : bool)
  : prog BytesIO :=
  audio_data <- (if normalize_16
                 then a <- lift (_normalize_16_bit invalid_cast audio_data);;
                      Ret (Int16s a)
                 else Ret (Floats audio_data));;
  let virtualfile : BytesIO := [] in
  call (wavfile_write 44100 audio_data);;
  Ret (virtualfile ++ [{| wav_rate := 44100; wav_data := audio_data |}])%list.

(** [_plot_waveform] *)
Definition _plot_waveform (audio_data : ndarray) (sample_rate : Z)
  : prog Figure :=
  call (plt_subplots (14, 5));;
  call (librosa_display_waveshow audio_data sample_rate);;
  Ret {| figsize := (14, 5); waves := [(audio_data, sample_rate)] |}.

(** Lines 51-62 of [main]: the sidebar checkboxes. *)
Definition sidebar_checkboxes : prog enables :=
  enable_convolution <- call (st_checkbox Sidebar "Enable Convolution" false);;
  enable_compressor <- call (st_checkbox Sidebar "Enable Compressor" false);;
  enable_chorus <- call (st_checkbox Sidebar "Enable Chorus" false);;
  enable_distortion <- call (st_checkbox Sidebar "Enable Distortion" false);;
  enable_gain <- call (st_checkbox Sidebar "Enable Gain" true);;
  enable_hp <- call (st_checkbox Sidebar "Enable Highpass Filter" false);;
  enable_ld <- call (st_checkbox Sidebar "Enable Ladder Filter" false);;
  enable_limiter <- call (st_checkbox Sidebar "Enable Limiter" false);;
  enable_lp <- call (st_checkbox Sidebar "Enable Lowpass Filter" false);;
  enable_phaser <- call (st_checkbox Sidebar "Enable Phaser" false);;
  enable_reverb <- call (st_checkbox Sidebar "Enable Reverb" false);;
  Ret {| enable_convolution := enable_convolution;
         enable_compressor := enable_compressor;
         enable_chorus := enable_chorus;
         enable_distortion := enable_distortion;
         enable_gain := enable_gain;
         enable_hp := enable_hp;
         enable_ld := enable_ld;
         enable_limiter := enable_limiter;
         enable_lp := enable_lp;
         enable_phaser := enable_phaser;
         enable_reverb := enable_reverb |}.

(** Lines 65-73: the page header and the uploader. *)
Definition upload_widget : prog (option UploadedFile) :=
  call (st_markdown Page "
Testing [Spotify Pedalboard](https://github.com/spotify/pedalboard).
    ");;
  call (st_subheader Page ":file_folder: Import music file");;
  call (st_caption Page "...or use the sample example");;
  call (st_columns [2; 1]);;
  call (st_file_uploader (Column 0) "Upload wav file" ["wav"]).

(** Lines 74-77: the buffer comes from the upload, or from the bundled
    clip when there is none. *)
Definition load_audio (uploaded_file : option UploadedFile)
  : prog (ndarray * Z) :=
  match uploaded_file with
  | None =>
      path <- call (librosa_example "vibeace" true);;
      call (librosa_load (Path path) 44100)
  | Some f => call (librosa_load (FileObj f) 44100)
  end.

(** Lines 79-84: what is shown of the loaded buffer. *)
Definition show_loaded (audio : ndarray) (sample_rate : Z) : prog unit :=
  fig <- _plot_waveform audio sample_rate;;
  call (st_pyplot Page fig);;
  call (st_caption (Column 1) "Currently loaded audio file");;
  virtualfile <- _audio_to_virtualfile audio false;;
  call (st_audio (Column 1) virtualfile);;
  call (st_write Page (WText "---")).

(** The body shared by the eight effects without implementation. *)
Definition not_yet_implemented (label : string) : prog unit :=
  call (st_expander label);;
  call (st_warning (Expander label) "Not yet implemented").

Definition when (c : bool) (p : prog unit) : prog unit :=
  if c then p else Ret tt.

(** Lines 96-116: the compressor sliders and the append. *)
Definition configure_compressor (board : Pedalboard_t) : prog Pedalboard_t :=
  let c := Expander "Compressor" in
  call (st_expander "Compressor");;
  selected_compressor_threshold_db <-
    call (st_slider c "Threshold in dB" (-24) 24 (threshold_db (new_Compressor lib)));;
  selected_compressor_ratio <-
    call (st_slider c "Ratio" 0 10 (ratio (new_Compressor lib)));;
  selected_compressor_attack_ms <-
    call (st_slider c "Attack in ms" (1 # 10) 100 (attack_ms (new_Compressor lib)));;
  selected_compressor_release_ms <-
    call (st_slider c "Release in ms" (1 # 10) 1000 (release_ms (new_Compressor lib)));;
  Ret (append board
         (PCompressor
            (Compressor selected_compressor_threshold_db
               selected_compressor_ratio
               selected_compressor_attack_ms
               selected_compressor_release_ms))).

(** Lines 129-131: the gain slider and the append. *)
Definition configure_gain (board : Pedalboard_t) : prog Pedalboard_t :=
  call (st_expander "Gain");;
  selected_gain_db <-
    call (st_slider (Expander "Gain") "Gain in dB" (-24) 24 (gain_db (new_Gain lib)));;
  Ret (append board (PGain (Gain selected_gain_db))).

(** Lines 159-183: the reverb sliders and the append. *)
Definition configure_reverb (board : Pedalboard_t) : prog Pedalboard_t :=
  let c := Expander "Reverb" in
  call (st_expander "Reverb");;
  selected_reverb_room_size <-
    call (st_slider c "Room Size" 0 1 (room_size (new_Reverb lib)));;
  selected_reverb_damping <-
    call (st_slider c "Damping" 0 1 (damping (new_Reverb lib)));;
  selected_reverb_wet_level <-
    call (st_slider c "Wet Level" 0 1 (wet_level (new_Reverb lib)));;
  selected_reverb_dry_level <-
    call (st_slider c "Dry Level" 0 1 (dry_level (new_Reverb lib)));;
  selected_reverb_width <-
    call (st_slider c "Width" 0 1 (width (new_Reverb lib)));;
  selected_reverb_freeze_mode <-
    call (st_slider c "Freeze mode" 0 1 (freeze_mode (new_Reverb lib)));;
  Ret (append board
         (PReverb
            (Reverb selected_reverb_room_size
               selected_reverb_damping
               selected_reverb_wet_level
               selected_reverb_dry_level
               selected_reverb_width
               selected_reverb_freeze_mode))).

(** Lines 90-183: the eleven [if] blocks, in the order of the script. The
    board is a mutable object there and is threaded here. *)
Definition build_chain (en : enables) (board : Pedalboard_t)
  : prog Pedalboard_t :=
  when (enable_convolution en) (not_yet_implemented "Convolution");;
  board <- (if enable_compressor en
            then configure_compressor board else Ret board);;
  when (enable_chorus en) (not_yet_implemented "Chorus");;
  when (enable_distortion en) (not_yet_implemented "Distortion");;
  board <- (if enable_gain en then configure_gain board else Ret board);;
  when (enable_hp en) (not_yet_implemented "Highpass Filter");;
  when (enable_ld en) (not_yet_implemented "Ladder Filter");;
  when (enable_limiter en) (not_yet_implemented "Limiter");;
  when (enable_lp en) (not_yet_implemented "Lowpass Filter");;
  when (enable_phaser en) (not_yet_implemented "Phaser");;
  board <- (if enable_reverb en then configure_reverb board else Ret board);;
  Ret board.

(** Lines 87-189 of [main]: configuration of the effects. *)
Definition configure_effects (en : enables) (sample_rate : Z)
  : prog Pedalboard_t :=
  call (st_subheader Page ":hammer_and_wrench: Configure effects");;
  let board := Pedalboard [] sample_rate in
  board <- build_chain en board;;
  call (st_subheader Sidebar "Debug");;
  call (st_write Sidebar (WBoard board));;
  call (st_write Page (WText "---"));;
  Ret board.

(** Lines 192-201 of [main]: render and output. *)
Definition pedalboard_render (board : Pedalboard_t) (audio : ndarray)
    (sample_rate : Z) : prog unit :=
  call (st_subheader Page ":headphones: Pedalboard output");;
  effected <- call (Pedalboard_call board audio);;
  fig <- _plot_waveform effected sample_rate;;
  call (st_pyplot Page fig);;
  played <- _audio_to_virtualfile effected false;;
  call (st_audio Page played);;
  exported <- _audio_to_virtualfile effected false;;
  call (st_download_button Page "Dowload effected" exported
          "output.wav" "audio/wave");;
  Ret tt.

(** Lines 79-201: what follows the load, whatever the buffer came
    from. *)
Definition after_load (en : enables) (audio : ndarray) (sample_rate : Z)
  : prog unit :=
  show_loaded audio sample_rate;;
  board <- configure_effects en sample_rate;;
  pedalboard_render board audio sample_rate.

(** [main] *)
Definition main : prog unit :=
  en <- sidebar_checkboxes;;
  uploaded_file <- upload_widget;;
  '(audio, sample_rate) <- load_audio uploaded_file;;
  after_load en audio sample_rate.

End Script.

(** *** Vocabulary of the statements *)

(** Every call that a program can make, whatever the answers, satisfies
    [P]. *)
Fixpoint all_calls {A : Type} (P : forall X : Type, event X -> Prop)
    (p : prog A) : Prop :=
  match p with
  | Ret _ => True
  | Throw _ => True
  | Call ev k => P _ ev /\ forall x, all_calls P (k x)
  end.

(** Every call recorded in a trace satisfies [P]. *)
Definition calls_in (P : forall X : Type, event X -> Prop) (t : trace) : Prop :=
  Forall (fun en => match en with Entry ev _ => P _ ev end) t.


(** The exception that a call was answered with, if any. *)
Definition raised (en : entry) : option exn :=
  match en with
  | Entry _ (OK _) => None
  | Entry _ (Raise e) => Some e
  end.

(** An environment without state. *)
Definition stateless (env : forall X : Type, event X -> result X)
  : forall X : Type, event X -> unit -> unit * result X :=
  fun X ev w => (w, env X ev).

(** The boards and buffers handed to the engine, in order. *)
Definition rendered (t : trace) : list (Pedalboard_t * ndarray) :=
  flat_map (fun en =>
    match en with
    | Entry ev _ =>
        match ev with
        | Pedalboard_call board audio => [(board, audio)]
        | _ => []
        end
    end) t.

(** The boards that a trace shows: rendered, or written to the page. *)
Definition boards_of (t : trace) : list Pedalboard_t :=
  flat_map (fun en =>
    match en with
    | Entry ev _ =>
        match ev with
        | Pedalboard_call board _ => [board]
        | st_write _ (WBoard board) => [board]
        | _ => []
        end
    end) t.

(** The buffers and rates answered by [librosa.load]. *)
Definition loaded (t : trace) : list (ndarray * Z) :=
  flat_map (fun en =>
    match en with
    | Entry ev r =>
        match ev in event X return result X -> list (ndarray * Z) with
        | librosa_load _ _ => fun r =>
            match r with OK a => [a] | Raise _ => [] end
        | _ => fun _ => []
        end r
    end) t.

(** The sample data handed to [wavfile.write]. *)
Definition wav_writes (t : trace) : list wav_samples :=
  flat_map (fun en =>
    match en with
    | Entry ev _ =>
        match ev with
        | wavfile_write _ data => [data]
        | _ => []
        end
    end) t.

Definition is_compressor (p : Plugin) : bool :=
  match p with PCompressor _ => true | _ => false end.
Definition is_gain (p : Plugin) : bool :=
  match p with PGain _ => true | _ => false end.
Definition is_reverb (p : Plugin) : bool :=
  match p with PReverb _ => true | _ => false end.

Definition count (f : Plugin -> bool) (l : list Plugin) : nat :=
  List.length (filter f l).

(** The chain that the three implemented checkboxes select. *)
Definition chain (en : enables) (c : Compressor_t) (g : Gain_t) (r : Reverb_t)
  : list Plugin :=
  ((if enable_compressor en then [PCompressor c] else [])
   ++ (if enable_gain en then [PGain g] else [])
   ++ (if enable_reverb en then [PReverb r] else []))%list.

(** The checkboxes with the eight effects without implementation off. *)
Definition disable_unimplemented (en : enables) : enables :=
  {| enable_convolution := false;
     enable_compressor := enable_compressor en;
     enable_chorus := false;
     enable_distortion := false;
     enable_gain := enable_gain en;
     enable_hp := false;
     enable_ld := false;
     enable_limiter := false;
     enable_lp := false;
     enable_phaser := false;
     enable_reverb := enable_reverb en |}.

(** The trace of the sidebar when the checkboxes answer [en]. *)
Definition sidebar_trace (en : enables) : trace :=
  [ Entry (st_checkbox Sidebar "Enable Convolution" false) (OK (enable_convolution en));
    Entry (st_checkbox Sidebar "Enable Compressor" false) (OK (enable_compressor en));
    Entry (st_checkbox Sidebar "Enable Chorus" false) (OK (enable_chorus en));
    Entry (st_checkbox Sidebar "Enable Distortion" false) (OK (enable_distortion en));
    Entry (st_checkbox Sidebar "Enable Gain" true) (OK (enable_gain en));
    Entry (st_checkbox Sidebar "Enable Highpass Filter" false) (OK (enable_hp en));
    Entry (st_checkbox Sidebar "Enable Ladder Filter" false) (OK (enable_ld en));
    Entry (st_checkbox Sidebar "Enable Limiter" false) (OK (enable_limiter en));
    Entry (st_checkbox Sidebar "Enable Lowpass Filter" false) (OK (enable_lp en));
    Entry (st_checkbox Sidebar "Enable Phaser" false) (OK (enable_phaser en));
    Entry (st_checkbox Sidebar "Enable Reverb" false) (OK (enable_reverb en)) ].

(** The trace of the page header and uploader when the uploader answers
    [up]. *)
Definition upload_trace (up : option UploadedFile) : trace :=
  [ Entry (st_markdown Page "
Testing [Spotify Pedalboard](https://github.com/spotify/pedalboard).
    ") (OK tt);
    Entry (st_subheader Page ":file_folder: Import music file") (OK tt);
    Entry (st_caption Page "...or use the sample example") (OK tt);
    Entry (st_columns [2; 1]) (OK tt);
    Entry (st_file_uploader (Column 0) "Upload wav file" ["wav"]) (OK up) ].

(** The trace of a load that succeeds: of the upload, or of the bundled
    clip found at [path]. *)
Definition load_trace (up : option UploadedFile) (path : string)
    (audio : ndarray) (sample_rate : Z) : trace :=
  match up with
  | None =>
      [ Entry (librosa_example "vibeace" true) (OK path);
        Entry (librosa_load (Path path) 44100) (OK (audio, sample_rate)) ]
  | Some f =>
      [ Entry (librosa_load (FileObj f) 44100) (OK (audio, sample_rate)) ]
  end.

Definition figure_of (audio : ndarray) (sample_rate : Z) : Figure :=
  {| figsize := (14, 5); waves := [(audio, sample_rate)] |}.

(** The stream that holds one WAV image of a float buffer at 44100 Hz. *)
Definition wav_of (audio : ndarray) : BytesIO :=
  [ {| wav_rate := 44100; wav_data := Floats audio |} ].

(** The trace of what is shown of the loaded buffer. *)
Definition shown_trace (audio : ndarray) (sample_rate : Z) : trace :=
  [ Entry (plt_subplots (14, 5)) (OK tt);
    Entry (librosa_display_waveshow audio sample_rate) (OK tt);
    Entry (st_pyplot Page (figure_of audio sample_rate)) (OK tt);
    Entry (st_caption (Column 1) "Currently loaded audio file") (OK tt);
    Entry (wavfile_write 44100 (Floats audio)) (OK tt);
    Entry (st_audio (Column 1) (wav_of audio)) (OK tt);
    Entry (st_write Page (WText "---")) (OK tt) ].

(** The trace of a render that succeeds with [effected]. *)
Definition render_trace (board : Pedalboard_t) (audio : ndarray)
    (sample_rate : Z) (effected : ndarray) (pressed : bool) : trace :=
  [ Entry (st_subheader Page ":headphones: Pedalboard output") (OK tt);
    Entry (Pedalboard_call board audio) (OK effected);
    Entry (plt_subplots (14, 5)) (OK tt);
    Entry (librosa_display_waveshow effected sample_rate) (OK tt);
    Entry (st_pyplot Page (figure_of effected sample_rate)) (OK tt);
    Entry (wavfile_write 44100 (Floats effected)) (OK tt);
    Entry (st_audio Page (wav_of effected)) (OK tt);
    Entry (wavfile_write 44100 (Floats effected)) (OK tt);
    Entry (st_download_button Page "Dowload effected" (wav_of effected)
             "output.wav" "audio/wave") (OK pressed) ].

(** Properties of the calls of one kind; calls of another kind are not
    constrained. *)
Definition on_render (Q : Pedalboard_t -> ndarray -> Prop)
    (X : Type) (ev : event X) : Prop :=
  match ev with
  | Pedalboard_call board audio => Q board audio
  | _ => True
  end.

Definition on_board (Q : Pedalboard_t -> Prop) (X : Type) (ev : event X)
  : Prop :=
  match ev with
  | Pedalboard_call board _ => Q board
  | st_write _ (WBoard board) => Q board
  | _ => True
  end.

Definition on_load (Q : audio_source -> Z -> Prop) (X : Type) (ev : event X)
  : Prop :=
  match ev with
  | librosa_load path sr => Q path sr
  | _ => True
  end.

Definition on_wav_write (Q : Z -> wav_samples -> Prop)
    (X : Type) (ev : event X) : Prop :=
  match ev with
  | wavfile_write rate data => Q rate data
  | _ => True
  end.


(** Sample rates of the calls that carry one. *)
Definition rate_44100 (X : Type) (ev : event X) : Prop :=
  match ev with
  | librosa_load _ sr => sr = 44100
  | wavfile_write rate _ => rate = 44100
  | st_audio _ data => Forall (fun im => wav_rate im = 44100) data
  | st_download_button _ _ data _ _ =>
      Forall (fun im => wav_rate im = 44100) data
  | _ => True
  end.

(** [librosa.load(path, sr=r)] answers the rate it was asked for. *)
Definition load_answers_rate (W : Type)
    (h : forall X : Type, event X -> W -> W * result X) : Prop :=
  forall src sr w w1 audio r,
    h _ (librosa_load src sr) w = (w1, OK (audio, r)) -> r = sr.

(** A load recorded in a trace was answered with the rate it asked
    for. *)
Definition load_kept_rate (en : entry) : Prop :=
  match en with
  | Entry ev r =>
      match ev in event X return result X -> Prop with
      | librosa_load _ sr => fun r =>
          match r with
          | OK (_, rate) => rate = sr
          | Raise _ => True
          end
      | _ => fun _ => True
      end r
  end.


(** WAV writes carry the float buffer, never normalized integers. *)
Definition writes_floats (X : Type) (ev : event X) : Prop :=
  match ev with
  | wavfile_write rate data => rate = 44100 /\ exists a, data = Floats a
  | _ => True
  end.

Definition within (lo hi x : Q) : Prop := (lo <= x <= hi)%Q.

(** The bounds of the slider that each parameter is read from. *)
Definition plugin_within (p : Plugin) : Prop :=
  match p with
  | PCompressor c =>
      within (-24) 24 (threshold_db c) /\ within 0 10 (ratio c)
      /\ within (1 # 10) 100 (attack_ms c)
      /\ within (1 # 10) 1000 (release_ms c)
  | PGain g => within (-24) 24 (gain_db g)
  | PReverb r =>
      within 0 1 (room_size r) /\ within 0 1 (damping r)
      /\ within 0 1 (wet_level r) /\ within 0 1 (dry_level r)
      /\ within 0 1 (width r) /\ within 0 1 (freeze_mode r)
  | PUnused _ => False
  end.

(** [st.slider] answers within the bounds it was given. *)
Definition slider_contract (W : Type)
    (h : forall X : Type, event X -> W -> W * result X) : Prop :=
  forall c label lo hi v w w1 x,
    (lo <= hi)%Q ->
    h _ (st_slider c label lo hi v) w = (w1, OK x) -> within lo hi x.

(** A slider recorded in a trace was answered within its bounds. *)
Definition slider_kept_bounds (en : entry) : Prop :=
  match en with
  | Entry ev r =>
      match ev in event X return result X -> Prop with
      | st_slider _ _ lo hi _ => fun r =>
          match r with
          | OK x => (lo <= hi)%Q -> within lo hi x
          | Raise _ => True
          end
      | _ => fun _ => True
      end r
  end.

(** The sliders of the script: container, label, bounds and default. *)
Definition declared_sliders (lib : defaults)
  : list (container * string * Q * Q * Q) :=
  [ (Expander "Compressor", "Threshold in dB", -24, 24, threshold_db (new_Compressor lib));
    (Expander "Compressor", "Ratio", 0, 10, ratio (new_Compressor lib));
    (Expander "Compressor", "Attack in ms", 1 # 10, 100, attack_ms (new_Compressor lib));
    (Expander "Compressor", "Release in ms", 1 # 10, 1000, release_ms (new_Compressor lib));
    (Expander "Gain", "Gain in dB", -24, 24, gain_db (new_Gain lib));
    (Expander "Reverb", "Room Size", 0, 1, room_size (new_Reverb lib));
    (Expander "Reverb", "Damping", 0, 1, damping (new_Reverb lib));
    (Expander "Reverb", "Wet Level", 0, 1, wet_level (new_Reverb lib));
    (Expander "Reverb", "Dry Level", 0, 1, dry_level (new_Reverb lib));
    (Expander "Reverb", "Width", 0, 1, width (new_Reverb lib));
    (Expander "Reverb", "Freeze mode", 0, 1, freeze_mode (new_Reverb lib)) ]%Q.

Definition slider_declared (lib : defaults) (X : Type) (ev : event X) : Prop :=
  match ev with
  | st_slider c label lo hi v => In (c, label, lo, hi, v) (declared_sliders lib)
  | _ => True
  end.

(** The slider [(c, label, lo, hi, v)] was answered [x] in the trace. *)
Definition slid (t : trace) (d : container * string * Q * Q * Q) (x : Q) : Prop :=
  let '(c, label, lo, hi, v) := d in
  In (Entry (st_slider c label lo hi v) (OK x)) t.

(** Each parameter of the plugin is the answer of its slider. *)
Definition from_sliders (lib : defaults) (t : trace) (p : Plugin) : Prop :=
  let s i := nth i (declared_sliders lib) (Page, "", 0, 0, 0)%Q in
  match p with
  | PCompressor c =>
      slid t (s 0%nat) (threshold_db c) /\ slid t (s 1%nat) (ratio c)
      /\ slid t (s 2%nat) (attack_ms c) /\ slid t (s 3%nat) (release_ms c)
  | PGain g => slid t (s 4%nat) (gain_db g)
  | PReverb r =>
      slid t (s 5%nat) (room_size r) /\ slid t (s 6%nat) (damping r)
      /\ slid t (s 7%nat) (wet_level r) /\ slid t (s 8%nat) (dry_level r)
      /\ slid t (s 9%nat) (width r) /\ slid t (s 10%nat) (freeze_mode r)
  | PUnused _ => False
  end.

(** *** A sample environment *)

(** The defaults documented by the Pedalboard library. *)
Definition demo_lib : defaults :=
  {| new_Compressor := Compressor 0 1 1 100;
     new_Gain := Gain 1;
     new_Reverb := Reverb (1 # 2) (1 # 2) (33 # 100) (4 # 10) 1 0 |}.

Definition clamp (lo hi x : Q) : Q :=
  if Qle_bool x lo then lo else if Qle_bool hi x then hi else x.

(** Every checkbox ticked, every slider left at its default, the
    uploader answering [up]; the engine reverses the buffer. With
    [broken], the load fails. *)
Definition demo_env (up : option UploadedFile) (broken : bool)
  : forall X : Type, event X -> result X :=
  fun X ev =>
    match ev in event X return result X with
    | st_checkbox _ _ _ => OK true
    | st_markdown _ _ => OK tt
    | st_subheader _ _ => OK tt
    | st_caption _ _ => OK tt
    | st_columns _ => OK tt
    | st_file_uploader _ _ _ => OK up
    | st_pyplot _ _ => OK tt
    | st_audio _ _ => OK tt
    | st_write _ _ => OK tt
    | st_expander _ => OK tt
    | st_warning _ _ => OK tt
    | st_slider _ _ lo hi v => OK (clamp lo hi v)
    | st_download_button _ _ _ _ _ => OK false
    | librosa_example key _ => OK (key ++ ".ogg")
    | librosa_load _ sr =>
        if broken then Raise "LibsndfileError"
        else OK ([Finite (1 # 2); Finite (- 1 # 4); Finite 0], sr)
    | plt_subplots _ => OK tt
    | librosa_display_waveshow _ _ => OK tt
    | wavfile_write _ _ => OK tt
    | Pedalboard_call _ audio => OK (rev audio)
    end.

Definition demo_upload : UploadedFile :=
  {| upload_name := "take.wav"; upload_bytes := "RIFF" |}.

Definition demo_cast : npfloat -> Z := fun _ => 0.

(** The sample environment as a handler, and what it makes of [main]:
    every box ticked, the bundled clip loaded at the rate asked for. *)
Definition demo_h (up : option UploadedFile) (broken : bool)
  : forall X : Type, event X -> unit -> unit * result X :=
  stateless (demo_env up broken).

Definition demo_enables : enables :=
  {| enable_convolution := true; enable_compressor := true;
     enable_chorus := true; enable_distortion := true;
     enable_gain := true; enable_hp := true; enable_ld := true;
     enable_limiter := true; enable_lp := true; enable_phaser := true;
     enable_reverb := true |}.

Definition demo_audio : ndarray :=
  [Finite (1 # 2); Finite (- 1 # 4); Finite 0].

Definition demo_board : Pedalboard_t :=
  Pedalboard
    [ PCompressor (new_Compressor demo_lib); PGain (new_Gain demo_lib);
      PReverb (new_Reverb demo_lib) ]
    44100.

(** *** What the configuration shows *)

(** The expanders opened, the warnings shown and the sliders asked, in
    order. *)
Definition expanders (t : trace) : list string :=
  flat_map (fun en =>
    match en with
    | Entry ev _ =>
        match ev with
        | st_expander label => [label]
        | _ => []
        end
    end) t.

Definition warnings (t : trace) : list (container * string) :=
  flat_map (fun en =>
    match en with
    | Entry ev _ =>
        match ev with
        | st_warning c body => [(c, body)]
        | _ => []
        end
    end) t.

Definition sliders_asked (t : trace) : list (container * string) :=
  flat_map (fun en =>
    match en with
    | Entry ev _ =>
        match ev with
        | st_slider c label _ _ _ => [(c, label)]
        | _ => []
        end
    end) t.

(** The bundled clips asked of [librosa.example]. *)
Definition examples_asked (t : trace) : list (string * bool) :=
  flat_map (fun en =>
    match en with
    | Entry ev _ =>
        match ev with
        | librosa_example key hq => [(key, hq)]
        | _ => []
        end
    end) t.


Definition on_example (Q : string -> bool -> Prop) (X : Type) (ev : event X)
  : Prop :=
  match ev with
  | librosa_example key hq => Q key hq
  | _ => True
  end.


Definition if_ticked {A : Type} (c : bool) (l : list A) : list A :=
  if c then l else [].

(** The labels of the ticked effects, in the order of the script. *)
Definition ticked (en : enables) : list string :=
  (if_ticked (enable_convolution en) ["Convolution"]
   ++ if_ticked (enable_compressor en) ["Compressor"]
   ++ if_ticked (enable_chorus en) ["Chorus"]
   ++ if_ticked (enable_distortion en) ["Distortion"]
   ++ if_ticked (enable_gain en) ["Gain"]
   ++ if_ticked (enable_hp en) ["Highpass Filter"]
   ++ if_ticked (enable_ld en) ["Ladder Filter"]
   ++ if_ticked (enable_limiter en) ["Limiter"]
   ++ if_ticked (enable_lp en) ["Lowpass Filter"]
   ++ if_ticked (enable_phaser en) ["Phaser"]
   ++ if_ticked (enable_reverb en) ["Reverb"])%list.

(** The labels of the ticked effects that have no implementation. *)
Definition ticked_unimplemented (en : enables) : list string :=
  (if_ticked (enable_convolution en) ["Convolution"]
   ++ if_ticked (enable_chorus en) ["Chorus"]
   ++ if_ticked (enable_distortion en) ["Distortion"]
   ++ if_ticked (enable_hp en) ["Highpass Filter"]
   ++ if_ticked (enable_ld en) ["Ladder Filter"]
   ++ if_ticked (enable_limiter en) ["Limiter"]
   ++ if_ticked (enable_lp en) ["Lowpass Filter"]
   ++ if_ticked (enable_phaser en) ["Phaser"])%list.

(** The sliders of the ticked effects, in the order of the script. *)
Definition ticked_sliders (en : enables) : list (container * string) :=
  (if_ticked (enable_compressor en)
     [ (Expander "Compressor", "Threshold in dB");
       (Expander "Compressor", "Ratio");
       (Expander "Compressor", "Attack in ms");
       (Expander "Compressor", "Release in ms") ]
   ++ if_ticked (enable_gain en) [ (Expander "Gain", "Gain in dB") ]
   ++ if_ticked (enable_reverb en)
        [ (Expander "Reverb", "Room Size"); (Expander "Reverb", "Damping");
          (Expander "Reverb", "Wet Level"); (Expander "Reverb", "Dry Level");
          (Expander "Reverb", "Width"); (Expander "Reverb", "Freeze mode") ])%list.

(** Only the ticked effects are shown: their expanders, the warning of
    those without implementation, the sliders of the others. *)
Definition shown_only (en : enables) (X : Type) (ev : event X) : Prop :=
  match ev with
  | st_expander label => In label (ticked en)
  | st_warning c body =>
      body = "Not yet implemented"
      /\ exists label, c = Expander label /\ In label (ticked_unimplemented en)
  | st_slider c label _ _ _ => In (c, label) (ticked_sliders en)
  | _ => True
  end.

(** The trace of a load that fails with [e]: of the upload, or of the
    bundled clip found at [path]. *)
Definition failed_load_trace (up : option UploadedFile) (path : string)
    (e : exn) : trace :=
  match up with
  | None =>
      [ Entry (librosa_example "vibeace" true) (OK path);
        Entry (librosa_load (Path path) 44100) (Raise e) ]
  | Some f => [ Entry (librosa_load (FileObj f) 44100) (Raise e) ]
  end.

(** The sample environment with an engine that fails. *)
Definition demo_env_engine_fails : forall X : Type, event X -> result X :=
  fun X ev =>
    match ev in event X return result X with
    | Pedalboard_call _ _ => Raise "RuntimeError"
    | ev' => demo_env None false _ ev'
    end.

End App.

(** ** The page *)

Module Page.

Import App.
Local Open Scope string_scope.

(** The calls of the script as a whole: the two that only its last lines
    make, and those of [main]. *)
Inductive call : Type -> Type :=
| st_set_page_config (page_title page_icon : string) : call unit
| st_title (body : string) : call unit
| app {X : Type} (ev : event X) : call X.

Inductive script (A : Type) : Type :=
| Done (a : A)
| Fail (e : exn)
| Step {X : Type} (c : call X) (k : X -> script A).

Arguments Done {A} a.
Arguments Fail {A} e.
Arguments Step {A X} c k.


Inductive record : Type :=
| Record_of {X : Type} (c : call X) (r : result X).

Section Run.

Variable W : Type.
Variable h : forall X : Type, call X -> W -> W * result X.

Fixpoint run {A : Type} (p : script A) (w : W)
  : W * list record * result A :=
  match p with
  | Done a => (w, [], OK a)
  | Fail e => (w, [], Raise e)
  | Step c k =>
      match h _ c w with
      | (w1, OK x) =>
          let '(w2, t, r) := run (k x) w1 in
          (w2, Record_of c (OK x) :: t, r)
      | (w1, Raise e) => (w1, [Record_of c (Raise e)], Raise e)
      end
  end.

End Run.






End Page.

(** * Facts *)

Import Numpy App.
Local Open Scope string_scope.
Local Open Scope list_scope.

(** ** [_normalize_16_bit] *)

Section NormalizeFacts.

Local Open Scope Q_scope.

Lemma wrap16_range (z : Z) : in_int16 (wrap16 z).
Proof.
  unfold in_int16, wrap16, int16_min, int16_max.
  pose proof (Z.mod_pos_bound (z + 32768) 65536 eq_refl). lia.
Qed.

Lemma in_int16b_spec (z : Z) : in_int16b z = true <-> in_int16 z.
Proof.
  unfold in_int16b, in_int16.
  rewrite andb_true_iff, !Z.leb_le. tauto.
Qed.

Lemma np_int16_range (c : npfloat -> Z) (x : npfloat) :
  in_int16 (np_int16 c x).
Proof.
  destruct x as [q| | |]; simpl; try apply wrap16_range.
  destruct (in_int16b (trunc q)) eqn:E.
  - now apply in_int16b_spec.
  - apply wrap16_range.
Qed.

(** Truncation of a rational in [-29490.3, 29490.3]. *)
Lemma trunc_bound (v : Q) :
  - (294903 # 10) <= v <= 294903 # 10 ->
  (-29490 <= trunc v <= 29490)%Z.
Proof.
  destruct v as [n d]. unfold Qle, trunc. simpl. intros [Hl Hu].
  destruct (Z_lt_le_dec n 0) as [Hn | Hn].
  - replace n with (- (- n))%Z by lia.
    rewrite Z.quot_opp_l by lia.
    rewrite Z.quot_div_nonneg by lia.
    assert (0 <= - n / Z.pos d)%Z by (apply Z.div_pos; lia).
    assert (- n / Z.pos d < 29491)%Z by (apply Z.div_lt_upper_bound; lia).
    lia.
  - rewrite Z.quot_div_nonneg by lia.
    assert (0 <= n / Z.pos d)%Z by (apply Z.div_pos; lia).
    assert (n / Z.pos d < 29491)%Z by (apply Z.div_lt_upper_bound; lia).
    lia.
Qed.

Lemma scaled_Q_bound (m q : Q) :
  0 < m -> Qabs q <= m ->
  - (294903 # 10) <= scaled_Q m q <= 294903 # 10.
Proof.
  intros Hm Hq. apply Qabs_Qle_condition in Hq. destruct Hq as [Hl Hu].
  assert (Hr : -(1) <= q / m <= 1).
  { split.
    - apply Qle_shift_div_l; [exact Hm|].
      setoid_replace (-(1) * m) with (- m) by ring. exact Hl.
    - apply Qle_shift_div_r; [exact Hm|].
      setoid_replace (1 * m) with m by ring. exact Hu. }
  destruct Hr as [Hrl Hru]. unfold scaled_Q.
  split.
  - setoid_replace (- (294903 # 10)) with (-(1) * 32767 * (9 # 10))
      by reflexivity.
    apply Qmult_le_compat_r; [|discriminate].
    apply Qmult_le_compat_r; [exact Hrl|discriminate].
  - setoid_replace (294903 # 10) with (1 * 32767 * (9 # 10)) by reflexivity.
    apply Qmult_le_compat_r; [|discriminate].
    apply Qmult_le_compat_r; [exact Hru|discriminate].
Qed.

(** On finite samples the reduction of [np.max] is [peak]. *)
Lemma fold_maximum_finite (xs : list Q) (a : Q) :
  fold_left np_maximum (map np_abs (map Finite xs)) (Finite a)
  = Finite (peak a xs).
Proof.
  revert a. induction xs as [|x xs IH]; intros a; simpl; [reflexivity|].
  unfold peak. simpl. destruct (Qle_bool a (Qabs x)); apply IH.
Qed.

Lemma peak_ge_seed (xs : list Q) (a : Q) : a <= peak a xs.
Proof.
  revert a. induction xs as [|x xs IH]; intros a; unfold peak; simpl.
  - apply Qle_refl.
  - destruct (Qle_bool a (Qabs x)) eqn:E.
    + apply Qle_bool_iff in E. eapply Qle_trans; [exact E | apply IH].
    + apply IH.
Qed.

Lemma peak_ge_each (xs : list Q) (a x : Q) :
  In x xs -> Qabs x <= peak a xs.
Proof.
  revert a. induction xs as [|y xs IH]; intros a; [contradiction|].
  intros [-> | Hin]; unfold peak; simpl.
  - destruct (Qle_bool a (Qabs x)) eqn:E.
    + apply peak_ge_seed.
    + eapply Qle_trans; [| apply peak_ge_seed].
      apply Qnot_lt_le. intro H. apply Qlt_le_weak in H.
      apply Qle_bool_iff in H. congruence.
  - destruct (Qle_bool a (Qabs y)); apply IH; exact Hin.
Qed.

(** A buffer of finite samples is the image of its rational values. *)
Lemma all_finite_values (buf : ndarray) :
  forallb is_finite buf = true -> exists qs, buf = map Finite qs.
Proof.
  induction buf as [|x buf IH]; simpl; intros H.
  - now exists [].
  - apply andb_true_iff in H. destruct H as [Hx Hb].
    destruct (IH Hb) as [qs ->].
    destruct x as [q| | |]; try discriminate.
    now exists (q :: qs).
Qed.

(** The peak of finite samples bounds each of them, and is positive as
    soon as one sample is not zero. *)
Lemma peak_dominates (a : Q) (r : list Q) :
  forall q, In q (a :: r) -> Qabs q <= peak (Qabs a) r.
Proof.
  intros q [-> | Hin]; [apply peak_ge_seed | now apply peak_ge_each].
Qed.

Lemma Qabs_positive (q : Q) : ~ q == 0 -> 0 < Qabs q.
Proof.
  destruct q as [n d]. unfold Qeq, Qlt. simpl. lia.
Qed.

Lemma peak_positive (a : Q) (r : list Q) :
  existsb nonzero (map Finite (a :: r)) = true -> 0 < peak (Qabs a) r.
Proof.
  intros H. apply existsb_exists in H. destruct H as [x [Hin Hx]].
  apply in_map_iff in Hin. destruct Hin as [q [<- Hq]].
  unfold nonzero in Hx. simpl in Hx.
  apply negb_true_iff in Hx.
  assert (Hne : ~ q == 0).
  { intro E. apply Qeq_bool_iff in E. congruence. }
  eapply Qlt_le_trans; [| apply (peak_dominates a r q Hq)].
  now apply Qabs_positive.
Qed.

(** The cast of a scaled finite sample needs no invalid conversion. *)
Lemma np_int16_scaled_finite (c : npfloat -> Z) (m q : Q) :
  0 < m -> Qabs q <= m ->
  np_int16 c (scaled (Finite m) (Finite q)) = trunc (scaled_Q m q)
  /\ (-29490 <= trunc (scaled_Q m q) <= 29490)%Z.
Proof.
  intros Hm Hq.
  pose proof (trunc_bound _ (scaled_Q_bound m q Hm Hq)) as Hb.
  split; [|exact Hb].
  unfold scaled. simpl.
  destruct (Qeq_bool m 0) eqn:E.
  - apply Qeq_bool_iff in E. rewrite E in Hm. discriminate.
  - simpl. fold (scaled_Q m q).
    replace (in_int16b (trunc (scaled_Q m q))) with true; [reflexivity|].
    symmetry. apply in_int16b_spec.
    unfold in_int16, int16_min, int16_max. lia.
Qed.

Lemma normalize_finite (c : npfloat -> Z) (qs : list Q) :
  existsb nonzero (map Finite qs) = true ->
  _normalize_16_bit c (map Finite qs) = OK (normalized_Q qs)
  /\ Forall (fun z => (-29490 <= z <= 29490)%Z) (normalized_Q qs).
Proof.
  destruct qs as [|a r]; [discriminate|]. intros H.
  pose proof (peak_positive a r H) as Hm.
  pose proof (peak_dominates a r) as Hd.
  unfold _normalize_16_bit, normalized_Q.
  change (np_max (map np_abs (map Finite (a :: r))))
    with (OK (fold_left np_maximum (map np_abs (map Finite r))
                (Finite (Qabs a)))).
  rewrite fold_maximum_finite.
  set (m := peak (Qabs a) r) in *.
  split.
  - f_equal. rewrite map_map. apply map_ext_in.
    intros q Hq. apply np_int16_scaled_finite; auto.
  - apply Forall_forall. intros z Hz.
    apply in_map_iff in Hz. destruct Hz as [q [<- Hq]].
    apply (np_int16_scaled_finite c); auto.
Qed.








End NormalizeFacts.

(** ** Running programs *)

Section RunFacts.

Variable W : Type.
Variable h : forall X : Type, event X -> W -> W * result X.

Lemma run_bind {A B : Type} (p : prog A) (f : A -> prog B) (w : W) :
  run W h (bind p f) w
  = match run W h p w with
    | (w1, t1, OK a) =>
        let '(w2, t2, r) := run W h (f a) w1 in (w2, (t1 ++ t2)%list, r)
    | (w1, t1, Raise e) => (w1, t1, Raise e)
    end.
Proof.
  revert w. induction p as [a | e | X ev k IH]; intros w; simpl.
  - destruct (run W h (f a) w) as [[w2 t2] r]. reflexivity.
  - reflexivity.
  - destruct (h X ev w) as [w1 [x | e]]; [|reflexivity].
    rewrite IH. destruct (run W h (k x) w1) as [[w2 t] [a | e]].
    + destruct (run W h (f a) w2) as [[w3 t3] r]. reflexivity.
    + reflexivity.
Qed.

(** A call answered with an exception ends the trace, and its exception
    is the outcome of the program. *)
Lemma raise_is_last {A : Type} (p : prog A) (w : W)
    (pre post : trace) (en : entry) (e : exn) :
  trace_of W h p w = (pre ++ en :: post)%list -> raised en = Some e ->
  post = [] /\ result_of W h p w = Raise e.
Proof.
  unfold trace_of, result_of.
  revert w pre. induction p as [a | e0 | X ev k IH]; intros w pre; simpl.
  - intros H. now destruct pre.
  - intros H. now destruct pre.
  - destruct (h X ev w) as [w1 [x | e0]].
    + destruct (run W h (k x) w1) as [[w2 t] r] eqn:E. simpl.
      intros H He. destruct pre as [|en0 pre]; simpl in H.
      * injection H as <- _. discriminate.
      * injection H as _ H.
        specialize (IH x w1 pre). rewrite E in IH. simpl in IH. auto.
    + simpl. intros H He. destruct pre as [|en0 pre]; simpl in H.
      * injection H as <- <-. simpl in He. split; congruence.
      * injection H as _ H. now destruct pre.
Qed.


Lemma all_calls_bind {A B : Type} (P : forall X : Type, event X -> Prop)
    (p : prog A) (f : A -> prog B) :
  all_calls P p -> (forall a, all_calls P (f a)) -> all_calls P (bind p f).
Proof.
  induction p as [a | e | X ev k IH]; simpl; auto.
  intros [He Hk] Hf. split; auto.
Qed.


Lemma all_calls_trace {A : Type} (P : forall X : Type, event X -> Prop)
    (p : prog A) (w : W) :
  all_calls P p -> calls_in P (trace_of W h p w).
Proof.
  unfold trace_of, calls_in.
  revert w. induction p as [a | e | X ev k IH]; intros w; simpl.
  - constructor.
  - constructor.
  - intros [He Hk]. destruct (h X ev w) as [w1 [x | e0]].
    + specialize (IH x w1 (Hk x)).
      destruct (run W h (k x) w1) as [[w2 t] r]. simpl in *.
      constructor; assumption.
    + simpl. constructor; [assumption | constructor].
Qed.

(** The contracts of the environment, read off a trace. *)
Lemma loads_keep_rate {A : Type} (p : prog A) (w : W) :
  load_answers_rate W h -> Forall load_kept_rate (trace_of W h p w).
Proof.
  intros Hc. unfold trace_of. revert w.
  induction p as [a | e | X ev k IH]; intros w; simpl; try constructor.
  destruct (h X ev w) as [w1 [x | e]] eqn:E.
  - specialize (IH x w1). destruct (run W h (k x) w1) as [[w2 t] r].
    simpl in *. constructor; [|exact IH].
    destruct ev; simpl; auto. destruct x as [audio rate].
    exact (Hc _ _ _ _ _ _ E).
  - simpl. constructor; [|constructor]. destruct ev; simpl; auto.
Qed.

Lemma sliders_keep_bounds {A : Type} (p : prog A) (w : W) :
  slider_contract W h -> Forall slider_kept_bounds (trace_of W h p w).
Proof.
  intros Hc. unfold trace_of. revert w.
  induction p as [a | e | X ev k IH]; intros w; simpl; try constructor.
  destruct (h X ev w) as [w1 [x | e]] eqn:E.
  - specialize (IH x w1). destruct (run W h (k x) w1) as [[w2 t] r].
    simpl in *. constructor; [|exact IH].
    destruct ev; simpl; auto. intros Hle.
    exact (Hc _ _ _ _ _ _ _ _ Hle E).
  - simpl. constructor; [|constructor]. destruct ev; simpl; auto.
Qed.

End RunFacts.

(** ** Observations on traces *)

Section Extraction.

Lemma rendered_app (t1 t2 : trace) :
  rendered (t1 ++ t2) = rendered t1 ++ rendered t2.
Proof. apply flat_map_app. Qed.

Lemma boards_of_app (t1 t2 : trace) :
  boards_of (t1 ++ t2) = boards_of t1 ++ boards_of t2.
Proof. apply flat_map_app. Qed.

Lemma loaded_app (t1 t2 : trace) : loaded (t1 ++ t2) = loaded t1 ++ loaded t2.
Proof. apply flat_map_app. Qed.

Lemma wav_writes_app (t1 t2 : trace) :
  wav_writes (t1 ++ t2) = wav_writes t1 ++ wav_writes t2.
Proof. apply flat_map_app. Qed.

Lemma rendered_on (Q : Pedalboard_t -> ndarray -> Prop) (t : trace) :
  calls_in (on_render Q) t ->
  Forall (fun ba => Q (fst ba) (snd ba)) (rendered t).
Proof.
  induction 1 as [|[X ev r] t Hev _ IH]; simpl; [constructor|].
  destruct ev; simpl in *; auto.
Qed.

Lemma boards_on (Q : Pedalboard_t -> Prop) (t : trace) :
  calls_in (on_board Q) t -> Forall Q (boards_of t).
Proof.
  induction 1 as [|[X ev r] t Hev _ IH]; simpl; [constructor|].
  destruct ev; simpl in *; auto.
  destruct x; simpl; auto.
Qed.

Lemma wav_writes_on (Q : Z -> wav_samples -> Prop) (t : trace) :
  calls_in (on_wav_write Q) t -> Forall (fun d => exists rate, Q rate d) (wav_writes t).
Proof.
  induction 1 as [|[X ev r] t Hev _ IH]; simpl; [constructor|].
  destruct ev; simpl in *; eauto.
Qed.

Lemma loaded_none (t : trace) :
  calls_in (on_load (fun _ _ => False)) t -> loaded t = [].
Proof.
  induction 1 as [|[X ev r] t Hev _ IH]; simpl; [reflexivity|].
  destruct ev; simpl in *; auto. contradiction.
Qed.

Lemma loaded_rates (t : trace) :
  calls_in rate_44100 t -> Forall load_kept_rate t ->
  Forall (fun l => snd l = 44100%Z) (loaded t).
Proof.
  induction 1 as [|[X ev r] t Hev _ IH]; simpl; [constructor|].
  intros Hk. inversion Hk as [|? ? Hr Ht]; subst.
  specialize (IH Ht). clear Hk.
  destruct ev; simpl in *; auto.
  destruct r as [[audio rate] | e]; simpl; auto.
  constructor; [simpl; congruence | exact IH].
Qed.

Lemma Forall_False_nil {A : Type} (l : list A) :
  Forall (fun _ => False) l -> l = [].
Proof. destruct 1; [reflexivity | contradiction]. Qed.

End Extraction.


(** ** Stages of the script *)

(** One step of symbolic execution: case analysis on the answer of the
    next call. *)
Ltac answer h :=
  match goal with
  | |- context [h ?X ?ev ?w] =>
      let w1 := fresh "w" in
      let x := fresh "x" in
      let e := fresh "e" in
      destruct (h X ev w) as [w1 [x | e]]; simpl
  end.

Ltac execute h := simpl; repeat answer h.

Ltac units := repeat match goal with u : unit |- _ => destruct u end.

(** Membership in a trace that is a concatenation. *)
Ltac in_trace := intros ? ?; rewrite ?in_app_iff; tauto.

(** Every call of a program, by a walk through its tree. *)
Ltac walk :=
  repeat first
    [ exact I
    | progress intros
    | progress simpl
    | match goal with
      | |- _ /\ _ => split
      | |- all_calls _ (if ?c then _ else _) => destruct c
      | |- all_calls _ (when ?c _) => destruct c
      | |- all_calls _ (match ?u with _ => _ end) => destruct u
      end
    | apply all_calls_bind ].

Section StageFacts.

Variable W : Type.
Variable h : forall X : Type, event X -> W -> W * result X.
Variable lib : defaults.
Variable invalid_cast : npfloat -> Z.

Lemma sidebar_ok (w w1 : W) (t : trace) (en : enables) :
  run W h sidebar_checkboxes w = (w1, t, OK en) -> t = sidebar_trace en.
Proof.
  unfold sidebar_checkboxes. execute h; intros H; try discriminate.
  injection H as <- <- <-. reflexivity.
Qed.

Lemma upload_ok (w w1 : W) (t : trace) (up : option UploadedFile) :
  run W h upload_widget w = (w1, t, OK up) -> t = upload_trace up.
Proof.
  unfold upload_widget. execute h; intros H; try discriminate.
  injection H as <- <- <-. units. reflexivity.
Qed.

Lemma load_ok (up : option UploadedFile) (w w1 : W) (t : trace)
    (audio : ndarray) (sample_rate : Z) :
  run W h (load_audio up) w = (w1, t, OK (audio, sample_rate)) ->
  exists path, t = load_trace up path audio sample_rate.
Proof.
  destruct up as [f|]; unfold load_audio; execute h; intros H; try discriminate.
  - injection H as <- <- <-. now exists "".
  - injection H as <- <- <-. now eexists.
Qed.

Lemma show_ok (audio : ndarray) (sample_rate : Z) (w w1 : W) (t : trace) (u : unit) :
  run W h (show_loaded invalid_cast audio sample_rate) w = (w1, t, OK u) ->
  t = shown_trace audio sample_rate.
Proof.
  unfold show_loaded. execute h; intros H; try discriminate.
  injection H as <- <- <-. units. reflexivity.
Qed.

Lemma render_ok (board : Pedalboard_t) (audio : ndarray) (sample_rate : Z)
    (w w1 : W) (t : trace) (u : unit) :
  run W h (pedalboard_render invalid_cast board audio sample_rate) w = (w1, t, OK u) ->
  exists effected pressed, t = render_trace board audio sample_rate effected pressed.
Proof.
  unfold pedalboard_render. execute h; intros H; try discriminate.
  injection H as <- <- <-. units.
  now eexists _, _.
Qed.

Lemma run_bind_ok {A B : Type} (p : prog A) (f : A -> prog B)
    (w w2 : W) (t : trace) (b : B) :
  run W h (bind p f) w = (w2, t, OK b) ->
  exists w1 t1 a t2,
    run W h p w = (w1, t1, OK a) /\ run W h (f a) w1 = (w2, t2, OK b)
    /\ t = (t1 ++ t2)%list.
Proof.
  rewrite run_bind. destruct (run W h p w) as [[w1 t1] [a | e]]; [|discriminate].
  destruct (run W h (f a) w1) as [[w3 t2] r] eqn:E.
  intros [= -> <- ->]. now exists w1, t1, a, t2.
Qed.

Lemma from_sliders_incl (t1 t2 : trace) (p : Plugin) :
  incl t1 t2 -> from_sliders lib t1 p -> from_sliders lib t2 p.
Proof.
  intros Hi. destruct p as [c | g | r | k]; unfold from_sliders, slid;
    simpl; intuition.
Qed.

Lemma compressor_ok (board b : Pedalboard_t) (w w1 : W) (t : trace) :
  run W h (configure_compressor lib board) w = (w1, t, OK b) ->
  exists c, b = append board (PCompressor c)
            /\ from_sliders lib t (PCompressor c).
Proof.
  unfold configure_compressor. execute h; intros H; try discriminate.
  injection H as <- <- <-. eexists. split; [reflexivity|].
  simpl. intuition.
Qed.

Lemma gain_ok (board b : Pedalboard_t) (w w1 : W) (t : trace) :
  run W h (configure_gain lib board) w = (w1, t, OK b) ->
  exists g, b = append board (PGain g) /\ from_sliders lib t (PGain g).
Proof.
  unfold configure_gain. execute h; intros H; try discriminate.
  injection H as <- <- <-. eexists. split; [reflexivity|].
  simpl. intuition.
Qed.

Lemma reverb_ok (board b : Pedalboard_t) (w w1 : W) (t : trace) :
  run W h (configure_reverb lib board) w = (w1, t, OK b) ->
  exists r, b = append board (PReverb r) /\ from_sliders lib t (PReverb r).
Proof.
  unfold configure_reverb. execute h; intros H; try discriminate.
  injection H as <- <- <-. eexists. split; [reflexivity|].
  simpl. intuition.
Qed.

Lemma build_chain_ok (en : enables) (board b : Pedalboard_t)
    (w w1 : W) (t : trace) :
  run W h (build_chain lib en board) w = (w1, t, OK b) ->
  exists c g r,
    plugins b = plugins board ++ chain en c g r
    /\ sample_rate b = sample_rate board
    /\ Forall (from_sliders lib t) (chain en c g r).
Proof.
  unfold build_chain. intros H.
  repeat match type of H with
         | run W h (bind _ _) _ = _ =>
             let E := fresh "E" in
             apply run_bind_ok in H;
             destruct H as (? & ? & ? & ? & E & H & ->)
         end.
  injection H as <- <- <-.
  unfold chain.
  destruct (enable_compressor en);
    [apply compressor_ok in E0; destruct E0 as (c & -> & Hc)
    | injection E0 as <- <- <-; pose (c := new_Compressor lib)];
  (destruct (enable_gain en);
    [apply gain_ok in E3; destruct E3 as (g & -> & Hg)
    | injection E3 as <- <- <-; pose (g := new_Gain lib)]);
  (destruct (enable_reverb en);
    [apply reverb_ok in E9; destruct E9 as (r & -> & Hr)
    | injection E9 as <- <- <-; pose (r := new_Reverb lib)]);
  exists c, g, r; simpl; rewrite <- ?app_assoc, ?app_nil_r; simpl;
  (split; [reflexivity|]); (split; [reflexivity|]);
  repeat first [apply Forall_nil | apply Forall_cons];
  match goal with
  | H : from_sliders lib ?t1 ?p |- from_sliders lib _ ?p =>
      apply (from_sliders_incl t1); [in_trace | exact H]
  end.
Qed.


(** The run of [main], stage by stage. *)
Lemma after_load_unfold (en : enables) (audio : ndarray) (sr : Z) (w : W) :
  run W h (after_load lib invalid_cast en audio sr) w
  = match run W h (show_loaded invalid_cast audio sr) w with
    | (w1, t1, Raise e) => (w1, t1, Raise e)
    | (w1, t1, OK _) =>
        match run W h (configure_effects lib en sr) w1 with
        | (w2, t2, Raise e) => (w2, t1 ++ t2, Raise e)
        | (w2, t2, OK board) =>
            let '(w3, t3, r) :=
              run W h (pedalboard_render invalid_cast board audio sr) w2 in
            (w3, t1 ++ t2 ++ t3, r)
        end
    end.
Proof.
  unfold after_load. rewrite run_bind.
  destruct (run W h (show_loaded invalid_cast audio sr) w)
    as [[w1 t1] [u | e]]; [|reflexivity].
  rewrite run_bind.
  destruct (run W h (configure_effects lib en sr) w1)
    as [[w2 t2] [board | e]]; [|reflexivity].
  destruct (run W h (pedalboard_render invalid_cast board audio sr) w2)
    as [[w3 t3] r].
  reflexivity.
Qed.

Lemma main_unfold (w : W) :
  run W h (main lib invalid_cast) w
  = match run W h sidebar_checkboxes w with
    | (w1, t1, Raise e) => (w1, t1, Raise e)
    | (w1, t1, OK en) =>
        match run W h upload_widget w1 with
        | (w2, t2, Raise e) => (w2, t1 ++ t2, Raise e)
        | (w2, t2, OK up) =>
            match run W h (load_audio up) w2 with
            | (w3, t3, Raise e) => (w3, t1 ++ t2 ++ t3, Raise e)
            | (w3, t3, OK (audio, sr)) =>
                let '(w4, t4, r) :=
                  run W h (after_load lib invalid_cast en audio sr) w3 in
                (w4, t1 ++ t2 ++ t3 ++ t4, r)
            end
        end
    end.
Proof.
  unfold main. rewrite run_bind.
  destruct (run W h sidebar_checkboxes w) as [[w1 t1] [en | e]];
    [|reflexivity].
  rewrite run_bind.
  destruct (run W h upload_widget w1) as [[w2 t2] [up | e]]; [|reflexivity].
  rewrite run_bind.
  destruct (run W h (load_audio up) w2) as [[w3 t3] [[audio sr] | e]];
    [|reflexivity].
  destruct (run W h (after_load lib invalid_cast en audio sr) w3)
    as [[w4 t4] r].
  reflexivity.
Qed.

(** Calls that no stage before the render makes. *)
Lemma no_render_early :
  all_calls (on_render (fun _ _ => False)) sidebar_checkboxes
  /\ all_calls (on_render (fun _ _ => False)) upload_widget
  /\ (forall up, all_calls (on_render (fun _ _ => False)) (load_audio up)).
Proof.
  unfold sidebar_checkboxes, upload_widget, load_audio. walk.
Qed.

Lemma no_render_before (en : enables) (sr : Z) :
  (forall audio, all_calls (on_render (fun _ _ => False))
                   (show_loaded invalid_cast audio sr))
  /\ all_calls (on_render (fun _ _ => False)) (configure_effects lib en sr).
Proof.
  unfold show_loaded, configure_effects, build_chain. walk.
Qed.

Lemma no_board_early :
  all_calls (on_board (fun _ => False)) sidebar_checkboxes
  /\ all_calls (on_board (fun _ => False)) upload_widget
  /\ (forall up, all_calls (on_board (fun _ => False)) (load_audio up)).
Proof.
  unfold sidebar_checkboxes, upload_widget, load_audio. walk.
Qed.

Lemma no_board_before (en : enables) (sr : Z) (board : Pedalboard_t) :
  (forall audio, all_calls (on_board (fun _ => False))
                   (show_loaded invalid_cast audio sr))
  /\ all_calls (on_board (fun _ => False)) (build_chain lib en board).
Proof.
  unfold show_loaded, build_chain. walk.
Qed.

Lemma no_load_elsewhere (en : enables) (audio : ndarray) (sr : Z) :
  all_calls (on_load (fun _ _ => False)) sidebar_checkboxes
  /\ all_calls (on_load (fun _ _ => False)) upload_widget
  /\ all_calls (on_load (fun _ _ => False))
       (after_load lib invalid_cast en audio sr)
  /\ all_calls (on_load (fun _ _ => False)) (configure_effects lib en sr)
  /\ (forall board,
         all_calls (on_load (fun _ _ => False))
           (pedalboard_render invalid_cast board audio sr)).
Proof.
  unfold sidebar_checkboxes, upload_widget, after_load, show_loaded,
    configure_effects, build_chain, pedalboard_render.
  walk.
Qed.

Lemma no_wav_write_in_configure (en : enables) (sr : Z) :
  all_calls (on_wav_write (fun _ _ => False)) sidebar_checkboxes
  /\ all_calls (on_wav_write (fun _ _ => False)) upload_widget
  /\ (forall up, all_calls (on_wav_write (fun _ _ => False)) (load_audio up))
  /\ all_calls (on_wav_write (fun _ _ => False))
       (configure_effects lib en sr).
Proof.
  unfold sidebar_checkboxes, upload_widget, load_audio, configure_effects,
    build_chain.
  walk.
Qed.


(** The board of the render stage is the one it was given. *)
Lemma render_uses (board : Pedalboard_t) (audio : ndarray) (sr : Z) :
  all_calls (on_render (fun b a => b = board /\ a = audio))
    (pedalboard_render invalid_cast board audio sr)
  /\ all_calls (on_board (fun b => b = board))
       (pedalboard_render invalid_cast board audio sr).
Proof.
  unfold pedalboard_render. walk; reflexivity.
Qed.

(** Properties of every call of [main]. *)
Lemma main_rate_44100 : all_calls rate_44100 (main lib invalid_cast).
Proof.
  unfold main, sidebar_checkboxes, upload_widget, load_audio, after_load,
    show_loaded, configure_effects, build_chain, pedalboard_render.
  walk; try reflexivity; repeat constructor.
Qed.


Lemma main_writes_floats : all_calls writes_floats (main lib invalid_cast).
Proof.
  unfold main, sidebar_checkboxes, upload_widget, load_audio, after_load,
    show_loaded, configure_effects, build_chain, pedalboard_render.
  walk; try reflexivity; eexists; reflexivity.
Qed.

Lemma main_slider_declared :
  all_calls (slider_declared lib) (main lib invalid_cast).
Proof.
  unfold main, sidebar_checkboxes, upload_widget, load_audio, after_load,
    show_loaded, configure_effects, build_chain, pedalboard_render.
  walk; tauto.
Qed.


Lemma stage_calls {A : Type} (P : forall X : Type, event X -> Prop)
    (p : prog A) (w w1 : W) (t : trace) (r : result A) :
  all_calls P p -> run W h p w = (w1, t, r) -> calls_in P t.
Proof.
  intros Hp E. pose proof (all_calls_trace W h P p w Hp) as H.
  unfold trace_of in H. now rewrite E in H.
Qed.

Lemma rendered_none (t : trace) :
  calls_in (on_render (fun _ _ => False)) t -> rendered t = [].
Proof.
  intros H. apply rendered_on in H. now apply Forall_False_nil in H.
Qed.

Lemma boards_none (t : trace) :
  calls_in (on_board (fun _ => False)) t -> boards_of t = [].
Proof.
  intros H. apply boards_on in H. now apply Forall_False_nil in H.
Qed.

Lemma wav_writes_none (t : trace) :
  calls_in (on_wav_write (fun _ _ => False)) t -> wav_writes t = [].
Proof.
  intros H. apply wav_writes_on in H.
  destruct H as [|d l [rate []] _]. reflexivity.
Qed.

Lemma load_absent (t : trace) (src : audio_source) (sr : Z)
    (r : result (ndarray * Z)) :
  calls_in (on_load (fun _ _ => False)) t ->
  ~ In (Entry (librosa_load src sr) r) t.
Proof.
  intros H Hin. unfold calls_in in H. rewrite Forall_forall in H.
  exact (H _ Hin).
Qed.

(** The stages before the configuration leave only answered calls in
    the trace of a run that went past them. *)
Lemma early_stages_answered (en : enables) (up : option UploadedFile)
    (path : string) (audio : ndarray) (sr : Z) :
  Forall (fun x => raised x = None)
    (sidebar_trace en ++ upload_trace up ++ load_trace up path audio sr
       ++ shown_trace audio sr).
Proof.
  destruct up; repeat constructor.
Qed.

(** The render stage calls the engine at most once. *)
Lemma render_once (board : Pedalboard_t) (audio : ndarray) (sr : Z)
    (w w1 : W) (t : trace) (r : result unit) :
  run W h (pedalboard_render invalid_cast board audio sr) w = (w1, t, r) ->
  rendered t = [] \/ rendered t = [(board, audio)].
Proof.
  unfold pedalboard_render. execute h; intros [= <- <- <-]; simpl; auto.
Qed.

(** When the engine is called, every stage before the render has
    completed. *)
Lemma render_reached (w : W) (b : Pedalboard_t) (a : ndarray) :
  In (b, a) (rendered (trace_of W h (main lib invalid_cast) w)) ->
  exists en up path sr t_cfg t_out w2 w3 w4 r,
    run W h (main lib invalid_cast) w
    = (w4,
       sidebar_trace en ++ upload_trace up ++ load_trace up path a sr
         ++ shown_trace a sr ++ t_cfg ++ t_out,
       r)
    /\ run W h (configure_effects lib en sr) w2 = (w3, t_cfg, OK b)
    /\ run W h (pedalboard_render invalid_cast b a sr) w3 = (w4, t_out, r)
    /\ rendered (trace_of W h (main lib invalid_cast) w) = [(b, a)].
Proof.
  unfold trace_of. rewrite main_unfold.
  destruct no_render_early as (N1 & N2 & N3).
  destruct (run W h sidebar_checkboxes w) as [[w1 t1] [en | e]] eqn:E1;
    cbn [fst snd];
    [|rewrite (rendered_none _ (stage_calls _ _ _ _ _ _ N1 E1));
      contradiction].
  destruct (run W h upload_widget w1) as [[w2 t2] [up | e]] eqn:E2;
    cbn [fst snd];
    [|rewrite rendered_app,
        (rendered_none _ (stage_calls _ _ _ _ _ _ N1 E1)),
        (rendered_none _ (stage_calls _ _ _ _ _ _ N2 E2));
      contradiction].
  destruct (run W h (load_audio up) w2) as [[w3 t3] [[audio sr] | e]] eqn:E3;
    cbn [fst snd];
    [|rewrite !rendered_app,
        (rendered_none _ (stage_calls _ _ _ _ _ _ N1 E1)),
        (rendered_none _ (stage_calls _ _ _ _ _ _ N2 E2)),
        (rendered_none _ (stage_calls _ _ _ _ _ _ (N3 up) E3));
      contradiction].
  destruct (no_render_before en sr) as (N4 & N5).
  rewrite after_load_unfold.
  pose proof (rendered_none _ (stage_calls _ _ _ _ _ _ N1 E1)) as R1.
  pose proof (rendered_none _ (stage_calls _ _ _ _ _ _ N2 E2)) as R2.
  pose proof (rendered_none _ (stage_calls _ _ _ _ _ _ (N3 up) E3)) as R3.
  destruct (run W h (show_loaded invalid_cast audio sr) w3)
    as [[w4 t4] [u | e]] eqn:E4; cbn [fst snd];
    pose proof (rendered_none _ (stage_calls _ _ _ _ _ _ (N4 audio) E4))
      as R4;
    [|rewrite !rendered_app, R1, R2, R3, R4; contradiction].
  destruct (run W h (configure_effects lib en sr) w4)
    as [[w5 t5] [board | e]] eqn:E5; cbn [fst snd];
    pose proof (rendered_none _ (stage_calls _ _ _ _ _ _ N5 E5)) as R5;
    [|rewrite !rendered_app, R1, R2, R3, R4, R5; contradiction].
  destruct (run W h (pedalboard_render invalid_cast board audio sr) w5)
    as [[w6 t6] r] eqn:E6; cbn [fst snd].
  rewrite !rendered_app, R1, R2, R3, R4, R5. simpl.
  destruct (render_once _ _ _ _ _ _ _ E6) as [-> | R6]; [contradiction|].
  rewrite R6. intros [[= <- <-] | []].
  apply sidebar_ok in E1. apply upload_ok in E2.
  apply load_ok in E3. destruct E3 as [path ->].
  apply show_ok in E4. subst.
  exists en, up, path, sr, t5, t6, w4, w5, w6, r.
  repeat split; assumption.
Qed.

Lemma configure_ok (en : enables) (sr : Z) (b : Pedalboard_t)
    (w w1 : W) (t : trace) :
  run W h (configure_effects lib en sr) w = (w1, t, OK b) ->
  exists c g r,
    plugins b = chain en c g r /\ sample_rate b = sr
    /\ Forall (from_sliders lib t) (chain en c g r).
Proof.
  unfold configure_effects. intros H.
  apply run_bind_ok in H. destruct H as (w2 & t1 & u & t2 & _ & H & ->).
  apply run_bind_ok in H. destruct H as (w3 & t3 & board & t4 & E & H & ->).
  apply build_chain_ok in E. destruct E as (c & g & r & Hp & Hs & Hf).
  assert (b = board) as ->.
  { revert H. execute h; intros [= _ _ ->]. reflexivity. }
  exists c, g, r. simpl in Hp, Hs. split; [exact Hp|]. split; [exact Hs|].
  apply Forall_forall. intros p Hin. rewrite Forall_forall in Hf.
  apply (from_sliders_incl t3); [in_trace | now apply Hf].
Qed.

(** A run of [main] that completes went through every stage. *)
Lemma main_complete (w : W) :
  result_of W h (main lib invalid_cast) w = OK tt ->
  exists en up path audio sr t_cfg board effected pressed w2 w3 w4,
    run W h (main lib invalid_cast) w
    = (w4,
       sidebar_trace en ++ upload_trace up ++ load_trace up path audio sr
         ++ shown_trace audio sr ++ t_cfg
         ++ render_trace board audio sr effected pressed,
       OK tt)
    /\ run W h (configure_effects lib en sr) w2 = (w3, t_cfg, OK board).
Proof.
  unfold result_of. rewrite main_unfold.
  destruct (run W h sidebar_checkboxes w) as [[w1 t1] [en | e]] eqn:E1;
    [|discriminate].
  destruct (run W h upload_widget w1) as [[w2 t2] [up | e]] eqn:E2;
    [|discriminate].
  destruct (run W h (load_audio up) w2) as [[w3 t3] [[audio sr] | e]] eqn:E3;
    [|discriminate].
  rewrite after_load_unfold.
  destruct (run W h (show_loaded invalid_cast audio sr) w3)
    as [[w4 t4] [u | e]] eqn:E4; [|discriminate].
  destruct (run W h (configure_effects lib en sr) w4)
    as [[w5 t5] [board | e]] eqn:E5; [|discriminate].
  destruct (run W h (pedalboard_render invalid_cast board audio sr) w5)
    as [[w6 t6] [u1 | e]] eqn:E6; [|discriminate].
  intros _. destruct u1.
  apply sidebar_ok in E1. apply upload_ok in E2.
  apply load_ok in E3. destruct E3 as [path ->].
  apply show_ok in E4. apply render_ok in E6.
  destruct E6 as (effected & pressed & ->). subst.
  exists en, up, path, audio, sr, t5, board, effected, pressed, w4, w5, w6.
  split; [reflexivity | assumption].
Qed.

(** Every board that the configuration shows has the rate it was built
    with, also when the stage fails on the way. *)
Lemma configure_boards (en : enables) (sr : Z) (w w1 : W) (t : trace)
    (r : result Pedalboard_t) :
  run W h (configure_effects lib en sr) w = (w1, t, r) ->
  Forall (fun b => sample_rate b = sr) (boards_of t).
Proof.
  unfold configure_effects.
  change (bind (call (st_subheader Page ":hammer_and_wrench: Configure effects")) ?f)
    with (Call (st_subheader Page ":hammer_and_wrench: Configure effects")
            (fun x => bind (Ret x) f)).
  cbn [run].
  destruct (h unit (st_subheader Page ":hammer_and_wrench: Configure effects") w)
    as [w2 [u | e]]; [|intros [= <- <- <-]; constructor].
  cbn [bind]. rewrite run_bind.
  destruct (run W h (build_chain lib en (Pedalboard [] sr)) w2)
    as [[w3 t3] [board | e]] eqn:E.
  - destruct (no_board_before en sr (Pedalboard [] sr)) as (_ & N).
    pose proof (boards_none _ (stage_calls _ _ _ _ _ _ N E)) as B.
    apply build_chain_ok in E. destruct E as (_ & _ & _ & _ & Hs & _).
    simpl in Hs.
    execute h; intros [= <- <- <-];
      unfold boards_of in *; simpl; rewrite flat_map_app, B; simpl;
      repeat constructor; assumption.
  - destruct (no_board_before en sr (Pedalboard [] sr)) as (_ & N).
    pose proof (boards_none _ (stage_calls _ _ _ _ _ _ N E)) as B.
    intros [= <- <- <-]. simpl. fold (boards_of t3). rewrite B. constructor.
Qed.

Lemma after_load_boards (en : enables) (audio : ndarray) (sr : Z)
    (w w1 : W) (t : trace) (r : result unit) :
  run W h (after_load lib invalid_cast en audio sr) w = (w1, t, r) ->
  Forall (fun b => sample_rate b = sr) (boards_of t).
Proof.
  rewrite after_load_unfold.
  destruct (no_board_before en sr (Pedalboard [] sr)) as (N & _).
  destruct (run W h (show_loaded invalid_cast audio sr) w)
    as [[w2 t2] [u | e]] eqn:E2;
    pose proof (boards_none _ (stage_calls _ _ _ _ _ _ (N audio) E2)) as B2;
    [|intros [= <- <- <-]; rewrite B2; constructor].
  destruct (run W h (configure_effects lib en sr) w2)
    as [[w3 t3] [board | e]] eqn:E3;
    pose proof (configure_boards _ _ _ _ _ _ E3) as B3;
    [|intros [= <- <- <-]; rewrite boards_of_app, B2; exact B3].
  destruct (run W h (pedalboard_render invalid_cast board audio sr) w3)
    as [[w4 t4] r4] eqn:E4.
  intros [= <- <- <-]. rewrite !boards_of_app, B2. simpl.
  apply Forall_app. split; [exact B3|].
  destruct (render_uses board audio sr) as [_ U].
  pose proof (boards_on _ _ (stage_calls _ _ _ _ _ _ U E4)) as B4.
  destruct (configure_ok _ _ _ _ _ _ E3) as (_ & _ & _ & _ & Hs & _).
  eapply Forall_impl; [|exact B4]. intros b ->. exact Hs.
Qed.

(** Every board of a run of [main] has the rate that the load answered. *)
Lemma main_boards (w : W) (b : Pedalboard_t) :
  In b (boards_of (trace_of W h (main lib invalid_cast) w)) ->
  exists en up path audio sr rest,
    trace_of W h (main lib invalid_cast) w
    = sidebar_trace en ++ upload_trace up ++ load_trace up path audio sr
        ++ rest
    /\ loaded rest = [] /\ sample_rate b = sr.
Proof.
  unfold trace_of. rewrite main_unfold.
  destruct no_board_early as (N1 & N2 & N3).
  destruct (run W h sidebar_checkboxes w) as [[w1 t1] [en | e]] eqn:E1;
    cbn [fst snd];
    pose proof (boards_none _ (stage_calls _ _ _ _ _ _ N1 E1)) as B1;
    [|rewrite B1; contradiction].
  destruct (run W h upload_widget w1) as [[w2 t2] [up | e]] eqn:E2;
    cbn [fst snd];
    pose proof (boards_none _ (stage_calls _ _ _ _ _ _ N2 E2)) as B2;
    [|rewrite boards_of_app, B1, B2; contradiction].
  destruct (run W h (load_audio up) w2) as [[w3 t3] [[audio sr] | e]] eqn:E3;
    cbn [fst snd];
    pose proof (boards_none _ (stage_calls _ _ _ _ _ _ (N3 up) E3)) as B3;
    [|rewrite !boards_of_app, B1, B2, B3; contradiction].
  destruct (run W h (after_load lib invalid_cast en audio sr) w3)
    as [[w4 t4] r] eqn:E4; cbn [fst snd].
  rewrite !boards_of_app, B1, B2, B3. simpl. intros Hin.
  pose proof (after_load_boards _ _ _ _ _ _ _ E4) as B4.
  rewrite Forall_forall in B4.
  destruct (no_load_elsewhere en audio sr) as (_ & _ & L & _).
  apply sidebar_ok in E1. apply upload_ok in E2.
  apply load_ok in E3. destruct E3 as [path ->]. subst.
  exists en, up, path, audio, sr, t4.
  split; [reflexivity|]. split; [|now apply B4].
  exact (loaded_none _ (stage_calls _ _ _ _ _ _ L E4)).
Qed.

(** Parameters read from sliders that kept their bounds are within the
    bounds of the script. *)
Lemma from_sliders_within (t : trace) (p : Plugin) :
  Forall slider_kept_bounds t -> from_sliders lib t p -> plugin_within p.
Proof.
  intros Hk. rewrite Forall_forall in Hk.
  destruct p as [c | g | r | k]; unfold from_sliders, slid; simpl;
    [| | |contradiction]; intros H;
    repeat match goal with
           | H : _ /\ _ |- _ => destruct H
           | |- _ /\ _ => split
           end;
    match goal with
    | H : In ?en t |- within _ _ ?x =>
        match en with
        | Entry _ (OK x) => apply (Hk _ H); discriminate
        end
    end.
Qed.

End StageFacts.

(** ** Environments without state *)

Section Stateless.

Variable env : forall X : Type, event X -> result X.
Variable lib : defaults.

Lemma result_bind {A B : Type} (p : prog A) (f : A -> prog B) :
  result_of unit (stateless env) (bind p f) tt
  = match result_of unit (stateless env) p tt with
    | OK a => result_of unit (stateless env) (f a) tt
    | Raise e => Raise e
    end.
Proof.
  unfold result_of. rewrite run_bind.
  destruct (run unit (stateless env) p tt) as [[[] t1] [a | e]];
    cbn [snd]; [|reflexivity].
  destruct (run unit (stateless env) (f a) tt) as [[w2 t2] r]. reflexivity.
Qed.

(** A block without implementation that completes changes nothing. *)
Lemma skip_unimplemented {B : Type} (c : bool) (label : string)
    (k : unit -> prog B) (b : B) :
  result_of unit (stateless env)
    (bind (when c (not_yet_implemented label)) k) tt = OK b ->
  result_of unit (stateless env) (k tt) tt = OK b.
Proof.
  rewrite result_bind.
  destruct (result_of unit (stateless env)
              (when c (not_yet_implemented label)) tt) as [[] | e];
    [auto | discriminate].
Qed.

Lemma build_chain_ignores (en : enables) (board b : Pedalboard_t) :
  result_of unit (stateless env) (build_chain lib en board) tt = OK b ->
  result_of unit (stateless env)
    (build_chain lib (disable_unimplemented en) board) tt = OK b.
Proof.
  unfold build_chain. simpl. intros H.
  apply skip_unimplemented in H.
  rewrite result_bind in H. rewrite result_bind.
  destruct (result_of unit (stateless env)
              (if enable_compressor en
               then configure_compressor lib board else Ret board) tt)
    as [board1 | e]; [|discriminate].
  do 2 apply skip_unimplemented in H.
  rewrite result_bind in H. rewrite result_bind.
  destruct (result_of unit (stateless env)
              (if enable_gain en
               then configure_gain lib board1 else Ret board1) tt)
    as [board2 | e]; [|discriminate].
  do 5 apply skip_unimplemented in H.
  exact H.
Qed.

(** The outcome of the configuration goes through the outcome of
    [build_chain]. *)
Lemma configure_through_chain (en : enables) (sr : Z) :
  result_of unit (stateless env) (configure_effects lib en sr) tt
  = match env unit (st_subheader Page
                      ":hammer_and_wrench: Configure effects") with
    | OK _ =>
        match result_of unit (stateless env)
                (build_chain lib en (Pedalboard [] sr)) tt with
        | OK board =>
            result_of unit (stateless env)
              (call (st_subheader Sidebar "Debug");;
               call (st_write Sidebar (WBoard board));;
               call (st_write Page (WText "---"));;
               Ret board)%prog tt
        | Raise e => Raise e
        end
    | Raise e => Raise e
    end.
Proof.
  unfold configure_effects. rewrite result_bind.
  unfold result_of at 1. simpl. unfold stateless at 1.
  destruct (env unit (st_subheader Page
                        ":hammer_and_wrench: Configure effects"))
    as [u | e]; simpl; [|reflexivity].
  apply result_bind.
Qed.

Hypothesis expander_ok : forall label, env unit (st_expander label) = OK tt.
Hypothesis warning_ok : forall c body, env unit (st_warning c body) = OK tt.

Lemma unimplemented_completes {B : Type} (c : bool) (label : string)
    (k : unit -> prog B) :
  result_of unit (stateless env)
    (bind (when c (not_yet_implemented label)) k) tt
  = result_of unit (stateless env) (k tt) tt.
Proof.
  rewrite result_bind. destruct c; [|reflexivity].
  unfold result_of, not_yet_implemented. simpl. unfold stateless.
  rewrite expander_ok. simpl. rewrite warning_ok. reflexivity.
Qed.

Lemma build_chain_same (en : enables) (board : Pedalboard_t) :
  result_of unit (stateless env) (build_chain lib en board) tt
  = result_of unit (stateless env)
      (build_chain lib (disable_unimplemented en) board) tt.
Proof.
  unfold build_chain. simpl.
  rewrite unimplemented_completes, !result_bind.
  destruct (result_of unit (stateless env)
              (if enable_compressor en
               then configure_compressor lib board else Ret board) tt)
    as [board1 | e]; [|reflexivity].
  rewrite !unimplemented_completes, !result_bind.
  destruct (result_of unit (stateless env)
              (if enable_gain en
               then configure_gain lib board1 else Ret board1) tt)
    as [board2 | e]; [|reflexivity].
  rewrite !unimplemented_completes.
  reflexivity.
Qed.

End Stateless.

(** * The claims *)

Section Claims.

Variable W : Type.
Variable h : forall X : Type, event X -> W -> W * result X.
Variable lib : defaults.
Variable invalid_cast : npfloat -> Z.

(** C1. For every answer of the eleven checkboxes, the chain that
    [configure_effects] assembles is [chain]: the compressor if its box is
    ticked, then the gain if its box is ticked, then the reverb if its box
    is ticked, and nothing else. The same holds of every board that a run
    of [main] hands to the engine, for the answers that the sidebar got in
    that run: each of the three classes occurs once when its box is ticked
    and not at all otherwise, and the three counts make up the chain. *)
Theorem chain_follows_checkboxes :
  (forall en sr w w1 t board,
      run W h (configure_effects lib en sr) w = (w1, t, OK board) ->
      exists c g r, plugins board = chain en c g r)
  /\ (forall w board audio,
        In (board, audio) (rendered (trace_of W h (main lib invalid_cast) w)) ->
        exists en rest c g r,
          trace_of W h (main lib invalid_cast) w = sidebar_trace en ++ rest
          /\ plugins board = chain en c g r
          /\ count is_compressor (plugins board)
             = (if enable_compressor en then 1 else 0)%nat
          /\ count is_gain (plugins board)
             = (if enable_gain en then 1 else 0)%nat
          /\ count is_reverb (plugins board)
             = (if enable_reverb en then 1 else 0)%nat
          /\ List.length (plugins board)
             = (count is_compressor (plugins board)
                + count is_gain (plugins board)
                + count is_reverb (plugins board))%nat).
Proof.
  split.
  - intros en sr w w1 t board E.
    destruct (configure_ok W h lib en sr board w w1 t E)
      as (c & g & r & Hp & _).
    now exists c, g, r.
  - intros w board audio Hin.
    destruct (render_reached W h lib invalid_cast w board audio Hin)
      as (en & up & path & sr & t_cfg & t_out & w2 & w3 & w4 & r0
          & Hrun & Hcfg & _ & _).
    destruct (configure_ok W h lib en sr board w2 w3 t_cfg Hcfg)
      as (c & g & r & Hp & _).
    exists en, (upload_trace up ++ load_trace up path audio sr
                ++ shown_trace audio sr ++ t_cfg ++ t_out), c, g, r.
    split; [unfold trace_of; now rewrite Hrun|].
    split; [exact Hp|].
    rewrite Hp. unfold chain, count.
    destruct (enable_compressor en), (enable_gain en), (enable_reverb en);
      simpl; repeat split; reflexivity.
Qed.


(** C3. One sample rate from load to render. Every load of a run of
    [main] asks for 44100 Hz, and every WAV stream that is written, played
    or offered for download is at 44100 Hz. Every board of the run, shown
    or rendered, was built with the rate that the one load of the run
    answered. When [librosa.load] answers the rate it is asked for, as it
    does when it resamples, that rate is 44100 Hz as well. *)
Theorem sample_rate_is_consistent (w : W) :
  let t := trace_of W h (main lib invalid_cast) w in
  calls_in rate_44100 t
  /\ (forall b, In b (boards_of t) ->
        exists audio sr, loaded t = [(audio, sr)] /\ sample_rate b = sr)
  /\ (load_answers_rate W h ->
      Forall (fun l => snd l = 44100%Z) (loaded t)
      /\ Forall (fun b => sample_rate b = 44100%Z) (boards_of t)).
Proof.
  intros t.
  assert (Hcalls : calls_in rate_44100 t)
    by apply all_calls_trace, main_rate_44100.
  assert (Hboards : forall b, In b (boards_of t) ->
            exists audio sr, loaded t = [(audio, sr)] /\ sample_rate b = sr).
  { intros b Hin.
    destruct (main_boards W h lib invalid_cast w b Hin)
      as (en & up & path & audio & sr & rest & Ht & Hl & Hs).
    exists audio, sr. split; [|exact Hs].
    subst t. rewrite Ht, !loaded_app, Hl.
    destruct up; reflexivity. }
  split; [exact Hcalls|]. split; [exact Hboards|].
  intros Hc.
  assert (Hrates : Forall (fun l => snd l = 44100%Z) (loaded t))
    by (apply loaded_rates; [exact Hcalls | now apply loads_keep_rate]).
  split; [exact Hrates|].
  apply Forall_forall. intros b Hin.
  destruct (Hboards b Hin) as (audio & sr & Hl & <-).
  rewrite Hl in Hrates. now inversion Hrates.
Qed.



(** C6. Every slider that a run of [main] shows is one of the eleven
    declared ones, with the bounds of the script and, as default, the
    attribute of the object that the effect class builds without argument.
    Every parameter of every plugin handed to the engine is the answer
    of its slider in that run; so, when sliders answer within their
    bounds, every parameter lies within the bounds of its slider. *)
Theorem parameters_come_from_sliders (w : W) :
  let t := trace_of W h (main lib invalid_cast) w in
  calls_in (slider_declared lib) t
  /\ (forall board audio,
        In (board, audio) (rendered t) ->
        Forall (from_sliders lib t) (plugins board))
  /\ (slider_contract W h ->
      forall board audio,
        In (board, audio) (rendered t) ->
        Forall plugin_within (plugins board)).
Proof.
  intros t.
  assert (Hfrom : forall board audio,
             In (board, audio) (rendered t) ->
             Forall (from_sliders lib t) (plugins board)).
  { intros board audio Hin.
    destruct (render_reached W h lib invalid_cast w board audio Hin)
      as (en & up & path & sr & t_cfg & t_out & w2 & w3 & w4 & r0
          & Hrun & Hcfg & _ & _).
    destruct (configure_ok W h lib en sr board w2 w3 t_cfg Hcfg)
      as (c & g & r & Hp & _ & Hf).
    rewrite Hp. apply Forall_forall. intros p Hp_in.
    rewrite Forall_forall in Hf.
    apply (from_sliders_incl lib t_cfg); [|now apply Hf].
    subst t. unfold trace_of. rewrite Hrun. cbn [fst snd]. in_trace. }
  split; [apply all_calls_trace, main_slider_declared|].
  split; [exact Hfrom|].
  intros Hc board audio Hin.
  eapply Forall_impl; [|exact (Hfrom board audio Hin)].
  intros p. apply from_sliders_within.
  now apply sliders_keep_bounds.
Qed.


(** C10. With [normalize_16] at [False], [_audio_to_virtualfile] makes
    one call, [wavfile.write] at 44100 Hz on the buffer as it is, and
    returns a stream that holds that one WAV image. In every run of [main]
    each WAV write carries a float buffer at 44100 Hz, never the 16-bit
    integers of [_normalize_16_bit], and [main] does not depend on how an
    invalid cast would behave. A run that completes writes three streams:
    the loaded buffer, and twice the answer of the engine. *)
Theorem normalization_is_never_applied (w : W) :
  let t := trace_of W h (main lib invalid_cast) w in
  (forall audio_data w0,
      run W h (_audio_to_virtualfile invalid_cast audio_data false) w0
      = match h unit (wavfile_write 44100 (Floats audio_data)) w0 with
        | (w1, OK u) =>
            (w1, [Entry (wavfile_write 44100 (Floats audio_data)) (OK u)],
             OK (wav_of audio_data))
        | (w1, Raise e) =>
            (w1, [Entry (wavfile_write 44100 (Floats audio_data)) (Raise e)],
             Raise e)
        end)
  /\ calls_in writes_floats t
  /\ (forall c, main lib c = main lib invalid_cast)
  /\ (result_of W h (main lib invalid_cast) w = OK tt ->
      exists audio sr board effected,
        loaded t = [(audio, sr)]
        /\ In (Entry (Pedalboard_call board audio) (OK effected)) t
        /\ wav_writes t = [Floats audio; Floats effected; Floats effected]).
Proof.
  intros t. split; [|split; [|split]].
  - intros audio_data w0. simpl.
    destruct (h unit (wavfile_write 44100 (Floats audio_data)) w0)
      as [w1 [u | e]]; reflexivity.
  - apply all_calls_trace, main_writes_floats.
  - intros c. reflexivity.
  - intros Hr.
    destruct (main_complete W h lib invalid_cast w Hr)
      as (en & up & path & audio & sr & t_cfg & board & effected & pressed
          & w2 & w3 & w4 & Hrun & Hcfg).
    exists audio, sr, board, effected.
    destruct (no_load_elsewhere lib invalid_cast en audio sr)
      as (_ & _ & _ & L & _).
    destruct (no_wav_write_in_configure lib en sr) as (_ & _ & _ & N).
    pose proof (loaded_none _ (stage_calls W h _ _ _ _ _ _ L Hcfg)) as Hl.
    pose proof (wav_writes_none _ (stage_calls W h _ _ _ _ _ _ N Hcfg))
      as Hn.
    subst t. unfold trace_of. rewrite Hrun. cbn [fst snd].
    rewrite !loaded_app, !wav_writes_app, Hl, Hn.
    split; [destruct up; reflexivity|].
    split; [rewrite ?in_app_iff; simpl; tauto|].
    destruct up; reflexivity.
Qed.

(** C2. The eight checkboxes of the effects without implementation add
    nothing to the chain. Against one environment, if the configuration
    completes with some of them ticked, it completes with all of them
    unticked and returns the same board; and when the expanders and the
    warnings of those blocks do not fail, the two configurations have the
    same outcome. The chain that the checkboxes select does not mention
    the eight. *)
Theorem unimplemented_effects_add_nothing
    (env : forall X : Type, event X -> result X) (en : enables) (sr : Z) :
  (forall board,
      result_of unit (stateless env) (configure_effects lib en sr) tt
      = OK board ->
      result_of unit (stateless env)
        (configure_effects lib (disable_unimplemented en) sr) tt
      = OK board)
  /\ ((forall label, env unit (st_expander label) = OK tt) ->
      (forall c body, env unit (st_warning c body) = OK tt) ->
      result_of unit (stateless env) (configure_effects lib en sr) tt
      = result_of unit (stateless env)
          (configure_effects lib (disable_unimplemented en) sr) tt)
  /\ (forall c g r, chain en c g r = chain (disable_unimplemented en) c g r).
Proof.
  split; [|split].
  - intros board. rewrite !configure_through_chain.
    destruct (env unit (st_subheader Page
                          ":hammer_and_wrench: Configure effects"))
      as [u | e]; [|discriminate].
    destruct (result_of unit (stateless env)
                (build_chain lib en (Pedalboard [] sr)) tt)
      as [b | e] eqn:E; [|discriminate].
    now rewrite (build_chain_ignores env lib en _ b E).
  - intros Hexp Hwarn. rewrite !configure_through_chain.
    now rewrite (build_chain_same env lib Hexp Hwarn en).
  - reflexivity.
Qed.

End Claims.

(** * The claims on a sample run *)

(** The sample environment of [App] ticks every box and answers every call;
    each claim is instantiated on it. *)

Ltac find_entry := vm_compute; repeat (first [left; reflexivity | right]).

Lemma demo_renders :
  In (demo_board, demo_audio)
    (rendered (trace_of unit (demo_h None false) (main demo_lib demo_cast) tt)).
Proof. vm_compute. left. reflexivity. Defined.

Lemma chain_follows_checkboxes_witness :
  (exists c g r, plugins demo_board = chain demo_enables c g r)
  /\ exists en rest c g r,
       trace_of unit (demo_h None false) (main demo_lib demo_cast) tt
       = sidebar_trace en ++ rest
       /\ plugins demo_board = chain en c g r
       /\ count is_compressor (plugins demo_board)
          = (if enable_compressor en then 1 else 0)%nat
       /\ count is_gain (plugins demo_board)
          = (if enable_gain en then 1 else 0)%nat
       /\ count is_reverb (plugins demo_board)
          = (if enable_reverb en then 1 else 0)%nat
       /\ List.length (plugins demo_board)
          = (count is_compressor (plugins demo_board)
             + count is_gain (plugins demo_board)
             + count is_reverb (plugins demo_board))%nat.
Proof.
  destruct (chain_follows_checkboxes unit (demo_h None false) demo_lib demo_cast)
    as [Hstage Hmain].
  split.
  - eapply (Hstage demo_enables 44100%Z tt). vm_compute. reflexivity.
  - apply (Hmain tt demo_board demo_audio). vm_compute. left. reflexivity.
Defined.


Lemma unimplemented_effects_add_nothing_witness :
  result_of unit (demo_h None false)
    (configure_effects demo_lib (disable_unimplemented demo_enables) 44100) tt
  = OK demo_board
  /\ result_of unit (demo_h None false)
       (configure_effects demo_lib demo_enables 44100) tt
     = result_of unit (demo_h None false)
         (configure_effects demo_lib (disable_unimplemented demo_enables) 44100)
         tt.
Proof.
  destruct (unimplemented_effects_add_nothing demo_lib (demo_env None false)
              demo_enables 44100) as (H1 & H2 & _).
  split.
  - apply H1. vm_compute. reflexivity.
  - apply H2; intros; reflexivity.
Defined.

Lemma demo_load_answers_rate (up : option UploadedFile) :
  load_answers_rate unit (demo_h up false).
Proof.
  intros src sr w w1 audio r H. unfold demo_h, stateless in H. simpl in H.
  now injection H as _ _ <-.
Defined.

Lemma sample_rate_is_consistent_witness :
  (exists audio sr,
      loaded (trace_of unit (demo_h None false) (main demo_lib demo_cast) tt)
      = [(audio, sr)] /\ sample_rate demo_board = sr)
  /\ Forall (fun l => snd l = 44100%Z)
       (loaded (trace_of unit (demo_h None false) (main demo_lib demo_cast) tt))
  /\ Forall (fun b => sample_rate b = 44100%Z)
       (boards_of (trace_of unit (demo_h None false) (main demo_lib demo_cast) tt)).
Proof.
  pose proof (sample_rate_is_consistent unit (demo_h None false) demo_lib
                demo_cast tt) as H.
  cbv zeta in H. destruct H as (_ & H2 & H3).
  split.
  - apply H2. vm_compute. left. reflexivity.
  - apply H3. apply demo_load_answers_rate.
Defined.

Lemma demo_completes (up : option UploadedFile) :
  result_of unit (demo_h up false) (main demo_lib demo_cast) tt = OK tt.
Proof. destruct up; vm_compute; reflexivity. Defined.



Lemma clamp_within (lo hi x : Q) : (lo <= hi)%Q -> within lo hi (clamp lo hi x).
Proof.
  intros Hle. unfold within, clamp.
  destruct (Qle_bool x lo) eqn:E1.
  - split; [apply Qle_refl | exact Hle].
  - destruct (Qle_bool hi x) eqn:E2.
    + split; [exact Hle | apply Qle_refl].
    + split; apply Qlt_le_weak, Qnot_le_lt; intro H;
        apply Qle_bool_iff in H; congruence.
Defined.

Lemma demo_slider_contract (up : option UploadedFile) (broken : bool) :
  slider_contract unit (demo_h up broken).
Proof.
  intros c label lo hi v w w1 x Hle H. unfold demo_h, stateless in H.
  simpl in H. injection H as _ <-. now apply clamp_within.
Defined.

Lemma parameters_come_from_sliders_witness :
  Forall (from_sliders demo_lib
            (trace_of unit (demo_h None false) (main demo_lib demo_cast) tt))
    (plugins demo_board)
  /\ Forall plugin_within (plugins demo_board).
Proof.
  pose proof (parameters_come_from_sliders unit (demo_h None false) demo_lib
                demo_cast tt) as H.
  cbv zeta in H. destruct H as (_ & H2 & H3).
  split.
  - apply (H2 demo_board demo_audio). apply demo_renders.
  - apply (H3 (demo_slider_contract None false) demo_board demo_audio).
    apply demo_renders.
Defined.


Lemma normalization_is_never_applied_witness :
  exists audio sr board effected,
    loaded (trace_of unit (demo_h None false) (main demo_lib demo_cast) tt)
    = [(audio, sr)]
    /\ In (Entry (Pedalboard_call board audio) (OK effected))
         (trace_of unit (demo_h None false) (main demo_lib demo_cast) tt)
    /\ wav_writes (trace_of unit (demo_h None false) (main demo_lib demo_cast) tt)
       = [Floats audio; Floats effected; Floats effected].
Proof.
  pose proof (normalization_is_never_applied unit (demo_h None false) demo_lib
                demo_cast tt) as H.
  cbv zeta in H. destruct H as (_ & _ & _ & H).
  apply H. apply demo_completes.
Defined.

(** * Further properties *)

(** ** More on [_normalize_16_bit] *)

Section NormalizeMore.
Local Open Scope Q_scope.

Lemma div_monotone_cross (a b d1 d2 : Z) :
  (0 <= a)%Z -> (0 < d1)%Z -> (0 < d2)%Z -> (a * d2 <= b * d1)%Z ->
  (a / d1 <= b / d2)%Z.
Proof.
  intros Ha H1 H2 H.
  apply Z.div_le_lower_bound; [exact H2|].
  pose proof (Z.mul_div_le a d1 H1) as L.
  assert (0 <= a / d1)%Z by (apply Z.div_pos; lia).
  apply Z.mul_le_mono_pos_r with (p := d1); [exact H1|].
  nia.
Qed.

(** Truncation is monotone on the rationals. *)
Lemma trunc_monotone (a b : Q) : a <= b -> (trunc a <= trunc b)%Z.
Proof.
  destruct a as [n1 d1], b as [n2 d2]. unfold Qle, trunc. simpl. intros H.
  destruct (Z_lt_le_dec n1 0) as [H1 | H1], (Z_lt_le_dec n2 0) as [H2 | H2].
  - replace n1 with (- (- n1))%Z by lia. replace n2 with (- (- n2))%Z by lia.
    rewrite (Z.quot_opp_l (- n1)), (Z.quot_opp_l (- n2)) by lia.
    rewrite !Z.quot_div_nonneg by lia.
    apply -> Z.opp_le_mono.
    apply div_monotone_cross; lia.
  - assert (n1 ÷ Z.pos d1 <= 0)%Z.
    { replace n1 with (- (- n1))%Z by lia. rewrite Z.quot_opp_l by lia.
      rewrite Z.quot_div_nonneg by lia.
      pose proof (Z.div_pos (- n1) (Z.pos d1)). lia. }
    assert (0 <= n2 ÷ Z.pos d2)%Z.
    { rewrite Z.quot_div_nonneg by lia. apply Z.div_pos; lia. }
    lia.
  - exfalso. nia.
  - rewrite !Z.quot_div_nonneg by lia.
    apply div_monotone_cross; lia.
Qed.

Lemma trunc_Qeq (a b : Q) : a == b -> trunc a = trunc b.
Proof.
  intros H. apply Z.le_antisymm; apply trunc_monotone; rewrite H; apply Qle_refl.
Qed.

Lemma trunc_opp (a : Q) : trunc (- a) = (- trunc a)%Z.
Proof.
  destruct a as [n d]. unfold trunc. simpl. apply Z.quot_opp_l. lia.
Qed.

Lemma scaled_Q_monotone (m a b : Q) :
  0 < m -> a <= b -> scaled_Q m a <= scaled_Q m b.
Proof.
  intros Hm H. unfold scaled_Q.
  apply Qmult_le_compat_r; [|discriminate].
  apply Qmult_le_compat_r; [|discriminate].
  unfold Qdiv. apply Qmult_le_compat_r; [exact H|].
  apply Qlt_le_weak, Qinv_lt_0_compat, Hm.
Qed.

Lemma scaled_Q_opp (m a : Q) : scaled_Q m (- a) == - scaled_Q m a.
Proof. unfold scaled_Q, Qdiv. ring. Qed.

Lemma scaled_Q_zero (m a : Q) : a == 0 -> scaled_Q m a == 0.
Proof. intros H. unfold scaled_Q, Qdiv. rewrite H. ring. Qed.




(** X2. On a buffer of finite samples that holds a nonzero sample,
    [_normalize_16_bit] applies one function to every sample, and this
    function keeps the order of the samples, sends silence to 0 and keeps
    the sign: no sample crosses zero and no two samples swap. *)
Theorem normalization_keeps_order_and_sign (c : npfloat -> Z) (qs : list Q) :
  existsb nonzero (map Finite qs) = true ->
  exists f : Q -> Z,
    _normalize_16_bit c (map Finite qs) = OK (map f qs)
    /\ (forall a b, a <= b -> (f a <= f b)%Z)
    /\ (forall a, a == 0 -> f a = 0%Z)
    /\ (forall a, 0 <= a -> (0 <= f a)%Z)
    /\ (forall a, a <= 0 -> (f a <= 0)%Z).
Proof.
  destruct qs as [|a0 r]; [discriminate|]. intros H.
  pose proof (peak_positive a0 r H) as Hm.
  set (m := peak (Qabs a0) r) in *.
  assert (Hzero : forall a, a == 0 -> trunc (scaled_Q m a) = 0%Z).
  { intros a Ha. now rewrite (trunc_Qeq _ _ (scaled_Q_zero m a Ha)). }
  assert (Hmono : forall a b, a <= b ->
                    (trunc (scaled_Q m a) <= trunc (scaled_Q m b))%Z).
  { intros a b Hab. now apply trunc_monotone, scaled_Q_monotone. }
  exists (fun q => trunc (scaled_Q m q)).
  split; [exact (proj1 (normalize_finite c (a0 :: r) H))|].
  split; [exact Hmono|]. split; [exact Hzero|]. split.
  - intros a Ha. rewrite <- (Hzero 0 (Qeq_refl 0)). now apply Hmono.
  - intros a Ha. rewrite <- (Hzero 0 (Qeq_refl 0)). now apply Hmono.
Qed.

Lemma Qabs_opp_eq (a : Q) : Qabs (- a) = Qabs a.
Proof.
  destruct a as [n d]. unfold Qabs, Qopp. simpl. f_equal. apply Z.abs_opp.
Qed.

Lemma peak_opp (s : Q) (r : list Q) : peak s (map Qopp r) = peak s r.
Proof.
  revert s. induction r as [|x r IH]; intros s; [reflexivity|].
  unfold peak in *. cbn [map fold_left]. rewrite Qabs_opp_eq. apply IH.
Qed.

Lemma nonzero_negative (buf : ndarray) :
  existsb nonzero (map np_negative buf) = existsb nonzero buf.
Proof.
  induction buf as [|x buf IH]; [reflexivity|]. simpl. rewrite IH. f_equal.
  destruct x as [q| | |]; try reflexivity.
  unfold nonzero. simpl. f_equal.
  destruct (Qeq_bool q 0) eqn:E.
  - apply Qeq_bool_iff in E. apply Qeq_bool_iff. rewrite E. reflexivity.
  - destruct (Qeq_bool (- q) 0) eqn:E'; [|reflexivity].
    apply Qeq_bool_iff in E'.
    assert (q == 0) by (rewrite <- (Qopp_involutive q), E'; reflexivity).
    apply Qeq_bool_iff in H. congruence.
Qed.

(** X3. Inverting the polarity of a finite buffer that holds a nonzero
    sample inverts the polarity of what [_normalize_16_bit] makes of it. *)
Theorem normalization_commutes_with_polarity (c : npfloat -> Z) (buf : ndarray) :
  forallb is_finite buf = true -> existsb nonzero buf = true ->
  exists out,
    _normalize_16_bit c buf = OK out
    /\ _normalize_16_bit c (map np_negative buf) = OK (map Z.opp out).
Proof.
  intros Hfin Hnz. destruct (all_finite_values buf Hfin) as [qs ->].
  exists (normalized_Q qs).
  split; [exact (proj1 (normalize_finite c qs Hnz))|].
  assert (Hneg : map np_negative (map Finite qs) = map Finite (map Qopp qs))
    by (rewrite !map_map; reflexivity).
  rewrite <- nonzero_negative, Hneg in Hnz. rewrite Hneg.
  rewrite (proj1 (normalize_finite c (map Qopp qs) Hnz)). f_equal.
  destruct qs as [|a r]; [reflexivity|].
  unfold normalized_Q. cbn [map]. rewrite Qabs_opp_eq, peak_opp.
  f_equal.
  - rewrite (trunc_Qeq _ _ (scaled_Q_opp _ a)). apply trunc_opp.
  - rewrite !map_map. apply map_ext. intros q.
    rewrite (trunc_Qeq _ _ (scaled_Q_opp _ q)). apply trunc_opp.
Qed.

(** NaN wins every maximum. *)
Lemma fold_maximum_nan (l : ndarray) : fold_left np_maximum l NaN = NaN.
Proof. induction l as [|x l IH]; [reflexivity|]. simpl. exact IH. Qed.

Lemma fold_maximum_with_nan (l : ndarray) (s : npfloat) :
  existsb is_nan l = true -> fold_left np_maximum (map np_abs l) s = NaN.
Proof.
  revert s. induction l as [|x l IH]; intros s; [discriminate|]. simpl.
  destruct x as [q| | |]; simpl; try (intros H; apply IH; exact H).
  intros _. replace (np_maximum s NaN) with NaN by (now destruct s).
  apply fold_maximum_nan.
Qed.

(** X4. One NaN in the buffer spoils every sample: the maximum of the
    magnitudes is NaN, every quotient is NaN, and every sample of the
    outcome is what the cast to 16 bits makes of NaN, the valid samples
    included. *)
Theorem one_nan_spoils_every_sample (c : npfloat -> Z) (buf : ndarray) :
  existsb is_nan buf = true ->
  np_max (map np_abs buf) = OK NaN
  /\ _normalize_16_bit c buf = OK (map (fun _ => wrap16 (c NaN)) buf).
Proof.
  intros H.
  assert (Hmax : np_max (map np_abs buf) = OK NaN).
  { destruct buf as [|x l]; [discriminate|]. simpl.
    destruct x as [q| | |]; simpl in *;
      try (now rewrite fold_maximum_with_nan).
    now rewrite fold_maximum_nan. }
  split; [exact Hmax|].
  unfold _normalize_16_bit. rewrite Hmax. f_equal.
  apply map_ext. intros x. unfold scaled.
  replace (np_divide x NaN) with NaN by (now destruct x). reflexivity.
Qed.

(** Without NaN, an infinity wins every maximum of magnitudes. *)
Lemma fold_maximum_inf (l : ndarray) :
  existsb is_nan l = false ->
  fold_left np_maximum (map np_abs l) PosInf = PosInf.
Proof.
  induction l as [|x l IH]; [reflexivity|]. simpl.
  destruct x as [q| | |]; simpl; try exact IH. discriminate.
Qed.

Lemma fold_maximum_with_inf (l : ndarray) (s : Q) :
  existsb is_nan l = false -> existsb is_inf l = true ->
  fold_left np_maximum (map np_abs l) (Finite s) = PosInf.
Proof.
  revert s. induction l as [|x l IH]; intros s; [discriminate|]. simpl.
  destruct x as [q| | |]; simpl; try discriminate.
  - intros Hn Hi. destruct (Qle_bool s (Qabs q)); now apply IH.
  - intros Hn _. now apply fold_maximum_inf.
  - intros Hn _. now apply fold_maximum_inf.
Qed.

(** X5. One infinite sample in a buffer without NaN silences the others:
    the maximum of the magnitudes is infinite, every finite sample becomes
    0, and the infinite samples become what the cast to 16 bits makes of
    NaN. *)
Theorem one_infinity_silences_the_rest (c : npfloat -> Z) (buf : ndarray) :
  existsb is_nan buf = false -> existsb is_inf buf = true ->
  np_max (map np_abs buf) = OK PosInf
  /\ _normalize_16_bit c buf
     = OK (map (fun x => if is_inf x then wrap16 (c NaN) else 0%Z) buf).
Proof.
  intros Hn Hi.
  assert (Hmax : np_max (map np_abs buf) = OK PosInf).
  { destruct buf as [|x l]; [discriminate|]. simpl in *.
    destruct x as [q| | |]; simpl in *; try discriminate.
    - now rewrite fold_maximum_with_inf.
    - now rewrite fold_maximum_inf.
    - now rewrite fold_maximum_inf. }
  split; [exact Hmax|].
  unfold _normalize_16_bit. rewrite Hmax. f_equal.
  apply map_ext_in. intros x Hx.
  destruct x as [q| | |]; try reflexivity.
  exfalso. rewrite <- not_true_iff_false in Hn. apply Hn.
  apply existsb_exists. exists NaN. now split.
Qed.

End NormalizeMore.

(** ** More on the stages of the script *)

Section StageMore.

Variable W : Type.
Variable h : forall X : Type, event X -> W -> W * result X.
Variable lib : defaults.
Variable invalid_cast : npfloat -> Z.

(** X6. With [normalize_16] set, [_audio_to_virtualfile] fails with the
    [ValueError] of [np.max] on an empty buffer, before it writes anything.
    On any other buffer it writes, at 44100 Hz, as many 16-bit integers as
    the buffer has samples, each of them within the range of [int16]; the
    stream it returns holds these integers, and the only failure is the one
    of the write. *)
Theorem normalized_stream (audio_data : ndarray) (w : W) :
  (audio_data = [] ->
   run W h (_audio_to_virtualfile invalid_cast audio_data true) w
   = (w, [], Raise "ValueError"))
  /\ (audio_data <> [] ->
      exists out,
        _normalize_16_bit invalid_cast audio_data = OK out
        /\ List.length out = List.length audio_data
        /\ Forall in_int16 out
        /\ run W h (_audio_to_virtualfile invalid_cast audio_data true) w
           = match h unit (wavfile_write 44100 (Int16s out)) w with
             | (w1, OK u) =>
                 (w1, [Entry (wavfile_write 44100 (Int16s out)) (OK u)],
                  OK [{| wav_rate := 44100; wav_data := Int16s out |}])
             | (w1, Raise e) =>
                 (w1, [Entry (wavfile_write 44100 (Int16s out)) (Raise e)],
                  Raise e)
             end).
Proof.
  split.
  - intros ->. reflexivity.
  - intros Hne. destruct audio_data as [|x xs]; [congruence|].
    unfold _audio_to_virtualfile, _normalize_16_bit.
    change (np_max (map np_abs (x :: xs)))
      with (OK (fold_left np_maximum (map np_abs xs) (np_abs x))).
    eexists. split; [reflexivity|]. split; [apply length_map|].
    split.
    + apply Forall_forall. intros z Hz.
      apply in_map_iff in Hz. destruct Hz as [y [<- _]].
      apply np_int16_range.
    + cbn [lift bind call run].
      destruct (h unit _ w) as [w1 [u | e]]; reflexivity.
Qed.

Lemma render_boards (board : Pedalboard_t) (audio : ndarray) (sr : Z)
    (w w1 : W) (t : trace) (r : result unit) :
  run W h (pedalboard_render invalid_cast board audio sr) w = (w1, t, r) ->
  boards_of t = map fst (rendered t).
Proof.
  unfold pedalboard_render. execute h; intros [= <- <- <-]; reflexivity.
Qed.

Lemma configure_shows_board (en : enables) (sr : Z) (b : Pedalboard_t)
    (w w1 : W) (t : trace) :
  run W h (configure_effects lib en sr) w = (w1, t, OK b) ->
  boards_of t = [b].
Proof.
  unfold configure_effects. intros H.
  apply run_bind_ok in H. destruct H as (w2 & t1 & u & t2 & E1 & H & ->).
  apply run_bind_ok in H. destruct H as (w3 & t3 & board & t4 & E & H & ->).
  destruct (no_board_before lib invalid_cast en sr (Pedalboard [] sr))
    as (_ & N).
  pose proof (boards_none _ (stage_calls W h _ _ _ _ _ _ N E)) as B.
  rewrite !boards_of_app, B.
  revert E1 H. execute h; intros [= <- <- <-]; intros [= <- <- <-].
  reflexivity.
Qed.

(** X7. When a run of [main] reaches the engine, the debug line of the
    sidebar has shown the board once and the board has been called once,
    and both are the same board: what the user reads in the sidebar is
    what the audio went through. *)
Theorem debug_panel_shows_rendered_board (w : W) (board : Pedalboard_t)
    (audio : ndarray) :
  In (board, audio) (rendered (trace_of W h (main lib invalid_cast) w)) ->
  boards_of (trace_of W h (main lib invalid_cast) w) = [board; board].
Proof.
  intros Hin.
  destruct (render_reached W h lib invalid_cast w board audio Hin)
    as (en & up & path & sr & t_cfg & t_out & w2 & w3 & w4 & r0
        & Hrun & Hcfg & Hout & Honce).
  pose proof (configure_shows_board _ _ _ _ _ _ Hcfg) as B1.
  pose proof (render_boards _ _ _ _ _ _ _ Hout) as B2.
  destruct (no_render_before lib invalid_cast en sr) as (_ & N).
  pose proof (rendered_none _ (stage_calls W h _ _ _ _ _ _ N Hcfg)) as R.
  unfold trace_of in *. rewrite Hrun in *. cbn [fst snd] in *.
  rewrite !rendered_app, R in Honce.
  rewrite !boards_of_app, B1, B2.
  destruct up; simpl in Honce |- *; rewrite Honce; reflexivity.
Qed.

Lemma expanders_app (t1 t2 : trace) :
  expanders (t1 ++ t2) = expanders t1 ++ expanders t2.
Proof. apply flat_map_app. Qed.

Lemma warnings_app (t1 t2 : trace) :
  warnings (t1 ++ t2) = warnings t1 ++ warnings t2.
Proof. apply flat_map_app. Qed.

Lemma sliders_asked_app (t1 t2 : trace) :
  sliders_asked (t1 ++ t2) = sliders_asked t1 ++ sliders_asked t2.
Proof. apply flat_map_app. Qed.

(** What one block of the configuration shows when it completes. *)
Lemma unimplemented_shows (c : bool) (label : string) (w w1 : W) (t : trace)
    (u : unit) :
  run W h (when c (not_yet_implemented label)) w = (w1, t, OK u) ->
  expanders t = if_ticked c [label]
  /\ warnings t = if_ticked c [(Expander label, "Not yet implemented")]
  /\ sliders_asked t = [].
Proof.
  destruct c; unfold when, not_yet_implemented; execute h;
    intros [= <- <- <-]; repeat split.
Qed.

Lemma compressor_shows (c : bool) (board b : Pedalboard_t) (w w1 : W)
    (t : trace) :
  run W h (if c then configure_compressor lib board else Ret board) w
  = (w1, t, OK b) ->
  expanders t = if_ticked c ["Compressor"]
  /\ warnings t = []
  /\ sliders_asked t
     = if_ticked c [ (Expander "Compressor", "Threshold in dB");
                     (Expander "Compressor", "Ratio");
                     (Expander "Compressor", "Attack in ms");
                     (Expander "Compressor", "Release in ms") ].
Proof.
  destruct c; unfold configure_compressor; execute h;
    intros [= <- <- <-]; repeat split.
Qed.

Lemma gain_shows (c : bool) (board b : Pedalboard_t) (w w1 : W) (t : trace) :
  run W h (if c then configure_gain lib board else Ret board) w
  = (w1, t, OK b) ->
  expanders t = if_ticked c ["Gain"]
  /\ warnings t = []
  /\ sliders_asked t = if_ticked c [ (Expander "Gain", "Gain in dB") ].
Proof.
  destruct c; unfold configure_gain; execute h;
    intros [= <- <- <-]; repeat split.
Qed.

Lemma reverb_shows (c : bool) (board b : Pedalboard_t) (w w1 : W) (t : trace) :
  run W h (if c then configure_reverb lib board else Ret board) w
  = (w1, t, OK b) ->
  expanders t = if_ticked c ["Reverb"]
  /\ warnings t = []
  /\ sliders_asked t
     = if_ticked c [ (Expander "Reverb", "Room Size");
                     (Expander "Reverb", "Damping");
                     (Expander "Reverb", "Wet Level");
                     (Expander "Reverb", "Dry Level");
                     (Expander "Reverb", "Width");
                     (Expander "Reverb", "Freeze mode") ].
Proof.
  destruct c; unfold configure_reverb; execute h;
    intros [= <- <- <-]; repeat split.
Qed.

Lemma map_if_ticked {A B : Type} (f : A -> B) (c : bool) (l : list A) :
  map f (if_ticked c l) = if_ticked c (map f l).
Proof. now destruct c. Qed.

Lemma build_chain_shows (en : enables) (board b : Pedalboard_t)
    (w w1 : W) (t : trace) :
  run W h (build_chain lib en board) w = (w1, t, OK b) ->
  expanders t = ticked en
  /\ warnings t
     = map (fun label => (Expander label, "Not yet implemented"))
         (ticked_unimplemented en)
  /\ sliders_asked t = ticked_sliders en.
Proof.
  unfold build_chain. intros H.
  repeat match type of H with
         | run W h (bind _ _) _ = _ =>
             let E := fresh "E" in
             apply run_bind_ok in H;
             destruct H as (? & ? & ? & ? & E & H & ->)
         end.
  injection H as <- <- <-.
  apply unimplemented_shows in E, E1, E2, E4, E5, E6, E7, E8.
  apply compressor_shows in E0. apply gain_shows in E3.
  apply reverb_shows in E9.
  repeat match goal with H : _ /\ _ |- _ => destruct H end.
  rewrite !expanders_app, !warnings_app, !sliders_asked_app.
  unfold ticked, ticked_unimplemented, ticked_sliders.
  rewrite !map_app, !map_if_ticked.
  repeat match goal with H : _ = _ |- _ => rewrite H; clear H end.
  cbn [app map]. rewrite ?app_nil_r. repeat split; reflexivity.
Qed.

Lemma main_block_shows_only (en : enables) (board : Pedalboard_t) :
  all_calls (shown_only en) (build_chain lib en board).
Proof.
  unfold build_chain, shown_only, ticked, ticked_unimplemented,
    ticked_sliders, if_ticked.
  walk; rewrite ?in_app_iff; simpl; try tauto;
    eexists; (split; [reflexivity|]); rewrite ?in_app_iff; simpl; tauto.
Qed.

(** X8. Whatever its outcome, the configuration opens expanders, shows
    warnings and asks sliders of ticked effects only. When it ends, it has
    opened one expander for each ticked effect, in the order of the script,
    shown "Not yet implemented" in the expander of each ticked effect
    without implementation, and asked the four sliders of the compressor,
    the slider of the gain and the six sliders of the reverb, when their
    boxes are ticked, and no other. *)
Theorem configuration_shows_the_ticked_effects (en : enables) (sr : Z)
    (w w1 : W) (t : trace) (r : result Pedalboard_t) :
  run W h (configure_effects lib en sr) w = (w1, t, r) ->
  calls_in (shown_only en) t
  /\ (forall b, r = OK b ->
        expanders t = ticked en
        /\ warnings t
           = map (fun label => (Expander label, "Not yet implemented"))
               (ticked_unimplemented en)
        /\ sliders_asked t = ticked_sliders en).
Proof.
  intros H. split.
  - apply (stage_calls W h _ _ _ _ _ _) with (2 := H).
    unfold configure_effects.
    apply all_calls_bind; [simpl; auto|]. intros _.
    apply all_calls_bind; [apply main_block_shows_only|].
    intros board. simpl. auto 10.
  - intros b ->. unfold configure_effects in H.
    apply run_bind_ok in H. destruct H as (w2 & t1 & u & t2 & E1 & H & ->).
    apply run_bind_ok in H. destruct H as (w3 & t3 & board & t4 & E & H & ->).
    apply build_chain_shows in E. destruct E as (Ex & Wa & Sl).
    rewrite !expanders_app, !warnings_app, !sliders_asked_app, Ex, Wa, Sl.
    revert E1 H. execute h; intros [= <- <- <-]; intros [= <- <- <-].
    simpl. rewrite !app_nil_r. repeat split; reflexivity.
Qed.

Lemma examples_asked_app (t1 t2 : trace) :
  examples_asked (t1 ++ t2) = examples_asked t1 ++ examples_asked t2.
Proof. apply flat_map_app. Qed.

Lemma examples_on (Q : string -> bool -> Prop) (t : trace) :
  calls_in (on_example Q) t ->
  Forall (fun k => Q (fst k) (snd k)) (examples_asked t).
Proof.
  induction 1 as [|[X ev r] t Hev _ IH]; simpl; [constructor|].
  destruct ev; simpl in *; auto.
Qed.

Lemma examples_none (t : trace) :
  calls_in (on_example (fun _ _ => False)) t -> examples_asked t = [].
Proof.
  intros H. apply examples_on in H. now apply Forall_False_nil in H.
Qed.

Lemma no_example_elsewhere (en : enables) (audio : ndarray) (sr : Z) :
  all_calls (on_example (fun _ _ => False)) sidebar_checkboxes
  /\ all_calls (on_example (fun _ _ => False)) upload_widget
  /\ all_calls (on_example (fun _ _ => False))
       (after_load lib invalid_cast en audio sr).
Proof.
  unfold sidebar_checkboxes, upload_widget, after_load, show_loaded,
    configure_effects, build_chain, pedalboard_render.
  walk.
Qed.

(** The outcomes of the load. *)
Lemma load_cases (up : option UploadedFile) (w w1 : W) (t : trace)
    (r : result (ndarray * Z)) :
  run W h (load_audio up) w = (w1, t, r) ->
  (exists path audio sr,
      r = OK (audio, sr) /\ t = load_trace up path audio sr)
  \/ (exists path e, r = Raise e /\ t = failed_load_trace up path e)
  \/ (exists e, up = None /\ r = Raise e
                /\ t = [Entry (librosa_example "vibeace" true) (Raise e)]).
Proof.
  destruct up as [f|]; unfold load_audio; execute h; intros [= <- <- <-].
  - left. destruct x as [audio sr]. now exists "", audio, sr.
  - right. left. now exists "", e.
  - left. destruct x0 as [audio sr]. now exists x, audio, sr.
  - right. left. now exists x, e.
  - right. right. now exists e.
Qed.

(** X9. When the load fails in a run of [main], the run ends there with
    the exception of the load: the page shows the sidebar and the uploader,
    and nothing of the player, the configuration, the debug line or the
    output. *)
Theorem failed_load_leaves_the_header (w : W) (src : audio_source) (sr : Z)
    (e : exn) :
  In (Entry (librosa_load src sr) (Raise e))
    (trace_of W h (main lib invalid_cast) w) ->
  exists en up path w1,
    run W h (main lib invalid_cast) w
    = (w1, sidebar_trace en ++ upload_trace up ++ failed_load_trace up path e,
       Raise e).
Proof.
  unfold trace_of. rewrite main_unfold.
  destruct (run W h sidebar_checkboxes w) as [[w1 t1] [en | e1]] eqn:E1.
  2:{ cbn [fst snd]. intros Hin. exfalso.
      destruct (no_load_elsewhere lib invalid_cast demo_enables [] 0)
        as (L1 & _).
      exact (load_absent _ _ _ _ (stage_calls W h _ _ _ _ _ _ L1 E1) Hin). }
  destruct (no_load_elsewhere lib invalid_cast en [] 0) as (L1 & L2 & _).
  pose proof (load_absent t1 src sr (Raise e)
                (stage_calls W h _ _ _ _ _ _ L1 E1)) as A1.
  destruct (run W h upload_widget w1) as [[w2 t2] [up | e2]] eqn:E2;
    pose proof (load_absent t2 src sr (Raise e)
                  (stage_calls W h _ _ _ _ _ _ L2 E2)) as A2.
  2:{ cbn [fst snd]. intros Hin. exfalso.
      apply in_app_or in Hin. tauto. }
  apply sidebar_ok in E1. apply upload_ok in E2. subst t1 t2.
  destruct (run W h (load_audio up) w2) as [[w3 t3] r3] eqn:E3.
  destruct (load_cases _ _ _ _ _ E3)
    as [(path & audio & sr0 & -> & ->)
       | [(path & e3 & -> & ->) | (e3 & -> & -> & ->)]].
  - destruct (run W h (after_load lib invalid_cast en audio sr0) w3)
      as [[w4 t4] r4] eqn:E4. cbn [fst snd]. intros Hin. exfalso.
    destruct (no_load_elsewhere lib invalid_cast en audio sr0)
      as (_ & _ & L3 & _).
    pose proof (load_absent t4 src sr (Raise e)
                  (stage_calls W h _ _ _ _ _ _ L3 E4)) as A4.
    apply in_app_or in Hin. destruct Hin as [Hin | Hin]; [tauto|].
    apply in_app_or in Hin. destruct Hin as [Hin | Hin]; [tauto|].
    apply in_app_or in Hin. destruct Hin as [Hin | Hin]; [|tauto].
    assert (Hok : raised (Entry (librosa_load src sr) (Raise e)) = None).
    { pose proof (early_stages_answered en up path audio sr0) as F.
      rewrite Forall_forall in F. apply F.
      rewrite !in_app_iff. tauto. }
    discriminate.
  - cbn [fst snd]. intros Hin.
    apply in_app_or in Hin. destruct Hin as [Hin | Hin]; [tauto|].
    apply in_app_or in Hin. destruct Hin as [Hin | Hin]; [tauto|].
    assert (e3 = e) as ->.
    { destruct up; simpl in Hin; intuition;
        match goal with
        | H : Entry _ _ = Entry _ _ |- _ =>
            apply (f_equal raised) in H; simpl in H; congruence
        end. }
    now exists en, up, path, w3.
  - cbn [fst snd]. intros Hin. exfalso.
    apply in_app_or in Hin. destruct Hin as [Hin | Hin]; [tauto|].
    apply in_app_or in Hin. destruct Hin as [Hin | Hin]; [tauto|].
    simpl in Hin. destruct Hin as [Hin | []].
    apply (f_equal (fun x => examples_asked [x])) in Hin. discriminate.
Qed.

(** X10. [main] asks for a bundled clip only when nothing is uploaded:
    once the sidebar and the uploader have answered, the run asks for the
    high-quality clip "vibeace" once when the uploader is empty, and for no
    clip when it holds a file. *)
Theorem bundled_clip_only_without_upload (w w1 w2 : W) (t1 t2 : trace)
    (en : enables) (up : option UploadedFile) :
  run W h sidebar_checkboxes w = (w1, t1, OK en) ->
  run W h upload_widget w1 = (w2, t2, OK up) ->
  Forall (fun k => k = ("vibeace", true))
    (examples_asked (trace_of W h (main lib invalid_cast) w))
  /\ (List.length (examples_asked (trace_of W h (main lib invalid_cast) w))
      = match up with None => 1 | Some _ => 0 end)%nat.
Proof.
  intros E1 E2. unfold trace_of. rewrite main_unfold, E1, E2.
  apply sidebar_ok in E1. apply upload_ok in E2. subst t1 t2.
  destruct (run W h (load_audio up) w2) as [[w3 t3] r3] eqn:E3.
  destruct (load_cases _ _ _ _ _ E3)
    as [(path & audio & sr0 & -> & ->)
       | [(path & e3 & -> & ->) | (e3 & -> & -> & ->)]].
  - destruct (run W h (after_load lib invalid_cast en audio sr0) w3)
      as [[w4 t4] r4] eqn:E4. cbn [fst snd].
    destruct (no_example_elsewhere en audio sr0) as (_ & _ & N).
    pose proof (examples_none _ (stage_calls W h _ _ _ _ _ _ N E4)) as X.
    rewrite !examples_asked_app, X.
    destruct up; simpl; split; repeat constructor.
  - cbn [fst snd]. rewrite !examples_asked_app.
    destruct up; simpl; split; repeat constructor.
  - cbn [fst snd]. rewrite !examples_asked_app.
    simpl; split; repeat constructor.
Qed.

Lemma rendered_in (t : trace) (b : Pedalboard_t) (a : ndarray)
    (r : result ndarray) :
  In (Entry (Pedalboard_call b a) r) t -> In (b, a) (rendered t).
Proof.
  intros H. unfold rendered. apply in_flat_map.
  exists (Entry (Pedalboard_call b a) r). split; [exact H | now left].
Qed.

Lemma last_of_stage (t1 t2 : trace) (d : entry) :
  t2 <> [] -> last (t1 ++ t2) d = last t2 d.
Proof.
  intros H. induction t1 as [|x t1 IH]; [reflexivity|].
  simpl. rewrite IH. destruct (t1 ++ t2) eqn:E; [|reflexivity].
  apply app_eq_nil in E. tauto.
Qed.

(** The render stage when the engine fails. *)
Lemma render_failure (board : Pedalboard_t) (audio : ndarray) (sr : Z)
    (w w1 : W) (t : trace) (r : result unit) (e : exn) (d : entry) :
  run W h (pedalboard_render invalid_cast board audio sr) w = (w1, t, r) ->
  t <> []
  /\ (last t d = Entry (Pedalboard_call board audio) (Raise e) ->
      t = [ Entry (st_subheader Page ":headphones: Pedalboard output") (OK tt);
            Entry (Pedalboard_call board audio) (Raise e) ]
      /\ r = Raise e).
Proof.
  unfold pedalboard_render. execute h; intros [= <- <- <-];
    (split; [discriminate|]); cbn [last]; intros H;
    try (apply (f_equal (fun x => rendered [x])) in H; discriminate).
  apply (f_equal raised) in H. injection H as ->. units. now split.
Qed.

(** X11. When the engine fails in a run of [main], the run ends there
    with the exception of the engine: the loaded audio has been plotted and
    offered to play, the board has been configured, the header of the
    output is on the page, and no plot, player or download of the effected
    audio follows. *)
Theorem failed_render_keeps_the_loaded_audio (w : W) (board : Pedalboard_t)
    (audio : ndarray) (e : exn) :
  In (Entry (Pedalboard_call board audio) (Raise e))
    (trace_of W h (main lib invalid_cast) w) ->
  exists en up path sr t_cfg w1 w2 w3,
    run W h (main lib invalid_cast) w
    = (w3,
       sidebar_trace en ++ upload_trace up ++ load_trace up path audio sr
         ++ shown_trace audio sr ++ t_cfg
         ++ [ Entry (st_subheader Page ":headphones: Pedalboard output")
                (OK tt);
              Entry (Pedalboard_call board audio) (Raise e) ],
       Raise e)
    /\ run W h (configure_effects lib en sr) w1 = (w2, t_cfg, OK board).
Proof.
  intros Hin.
  destruct (render_reached W h lib invalid_cast w board audio
              (rendered_in _ _ _ _ Hin))
    as (en & up & path & sr & t_cfg & t_out & w2 & w3 & w4 & r0
        & Hrun & Hcfg & Hout & _).
  apply in_split in Hin. destruct Hin as (pre & post & Ht).
  destruct (raise_is_last W h _ w pre post _ e Ht eq_refl) as [-> _].
  destruct (render_failure _ _ _ _ _ _ _ e
              (Entry (Pedalboard_call board audio) (Raise e)) Hout)
    as (Hne & Hlast).
  unfold trace_of in Ht. rewrite Hrun in Ht. cbn [fst snd] in Ht.
  assert (Hl : last t_out (Entry (Pedalboard_call board audio) (Raise e))
               = Entry (Pedalboard_call board audio) (Raise e)).
  { rewrite <- (last_of_stage
                  (sidebar_trace en ++ upload_trace up
                     ++ load_trace up path audio sr ++ shown_trace audio sr
                     ++ t_cfg) t_out _ Hne).
    rewrite <- !app_assoc, Ht. apply last_last. }
  destruct (Hlast Hl) as [-> ->].
  exists en, up, path, sr, t_cfg, w2, w3, w4. split; assumption.
Qed.






End StageMore.

(** ** The page *)

Section PageFacts.

Variable W : Type.
Variable h : forall X : Type, Page.call X -> W -> W * result X.
Variable lib : defaults.
Variable invalid_cast : npfloat -> Z.




End PageFacts.

(** * The further properties on sample runs *)


Lemma normalization_keeps_order_and_sign_witness :
  exists f : Q -> Z,
    _normalize_16_bit demo_cast demo_audio
    = OK (map f [1 # 2; - 1 # 4; 0]%Q)
    /\ (f (- 1 # 4)%Q <= f 0%Q <= f (1 # 2)%Q)%Z.
Proof.
  destruct (normalization_keeps_order_and_sign demo_cast
              [1 # 2; - 1 # 4; 0]%Q eq_refl) as (f & Hn & Hmono & _).
  exists f. split; [exact Hn|].
  split; apply Hmono; discriminate.
Defined.

Lemma normalization_commutes_with_polarity_witness :
  exists out,
    _normalize_16_bit demo_cast demo_audio = OK out
    /\ _normalize_16_bit demo_cast (map np_negative demo_audio)
       = OK (map Z.opp out).
Proof.
  apply (normalization_commutes_with_polarity demo_cast demo_audio);
    reflexivity.
Defined.

Lemma one_nan_spoils_every_sample_witness :
  _normalize_16_bit demo_cast [Finite (1 # 2); NaN; Finite (- 1 # 4)]
  = OK [0; 0; 0]%Z.
Proof.
  exact (proj2 (one_nan_spoils_every_sample demo_cast
                  [Finite (1 # 2); NaN; Finite (- 1 # 4)] eq_refl)).
Defined.

Lemma one_infinity_silences_the_rest_witness :
  np_max (map np_abs [Finite (1 # 2); NegInf; Finite (- 1 # 4)]) = OK PosInf
  /\ _normalize_16_bit demo_cast [Finite (1 # 2); NegInf; Finite (- 1 # 4)]
     = OK [0; 0; 0]%Z.
Proof.
  exact (one_infinity_silences_the_rest demo_cast
           [Finite (1 # 2); NegInf; Finite (- 1 # 4)] eq_refl eq_refl).
Defined.

Lemma normalized_stream_witness :
  run unit (demo_h None false) (_audio_to_virtualfile demo_cast [] true) tt
  = (tt, [], Raise "ValueError")
  /\ exists out,
       _normalize_16_bit demo_cast demo_audio = OK out
       /\ List.length out = 3%nat
       /\ Forall in_int16 out
       /\ run unit (demo_h None false)
            (_audio_to_virtualfile demo_cast demo_audio true) tt
          = (tt, [Entry (wavfile_write 44100 (Int16s out)) (OK tt)],
             OK [{| wav_rate := 44100; wav_data := Int16s out |}]).
Proof.
  split.
  - exact (proj1 (normalized_stream unit (demo_h None false) demo_cast [] tt)
             eq_refl).
  - destruct (proj2 (normalized_stream unit (demo_h None false) demo_cast
                       demo_audio tt))
      as (out & H1 & H2 & H3 & H4); [discriminate|].
    exists out. repeat split; assumption.
Defined.

Lemma debug_panel_shows_rendered_board_witness :
  boards_of (trace_of unit (demo_h None false) (main demo_lib demo_cast) tt)
  = [demo_board; demo_board].
Proof.
  apply (debug_panel_shows_rendered_board unit (demo_h None false) demo_lib
           demo_cast tt demo_board demo_audio).
  apply demo_renders.
Defined.

Lemma configuration_shows_the_ticked_effects_witness :
  expanders
    (trace_of unit (demo_h None false)
       (configure_effects demo_lib demo_enables 44100) tt)
  = [ "Convolution"; "Compressor"; "Chorus"; "Distortion"; "Gain";
      "Highpass Filter"; "Ladder Filter"; "Limiter"; "Lowpass Filter";
      "Phaser"; "Reverb" ]
  /\ List.length
       (warnings
          (trace_of unit (demo_h None false)
             (configure_effects demo_lib demo_enables 44100) tt))
     = 8%nat
  /\ sliders_asked
       (trace_of unit (demo_h None false)
          (configure_effects demo_lib demo_enables 44100) tt)
     = ticked_sliders demo_enables.
Proof.
  destruct (configuration_shows_the_ticked_effects unit (demo_h None false)
              demo_lib demo_enables 44100 tt tt
              (trace_of unit (demo_h None false)
                 (configure_effects demo_lib demo_enables 44100) tt)
              (OK demo_board) eq_refl) as [_ H].
  destruct (H demo_board eq_refl) as (H1 & H2 & H3).
  split; [exact H1|]. split; [|exact H3].
  rewrite H2. reflexivity.
Defined.

Lemma failed_load_leaves_the_header_witness :
  exists en up path w1,
    run unit (demo_h None true) (main demo_lib demo_cast) tt
    = (w1,
       sidebar_trace en ++ upload_trace up
         ++ failed_load_trace up path "LibsndfileError",
       Raise "LibsndfileError").
Proof.
  apply (failed_load_leaves_the_header unit (demo_h None true) demo_lib
           demo_cast tt (Path "vibeace.ogg") 44100 "LibsndfileError").
  find_entry.
Defined.

Lemma bundled_clip_only_without_upload_witness :
  examples_asked
    (trace_of unit (demo_h None false) (main demo_lib demo_cast) tt)
  = [("vibeace", true)]
  /\ examples_asked
       (trace_of unit (demo_h (Some demo_upload) false)
          (main demo_lib demo_cast) tt)
     = [].
Proof.
  split.
  - destruct (bundled_clip_only_without_upload unit (demo_h None false)
                demo_lib demo_cast tt tt tt (sidebar_trace demo_enables)
                (upload_trace None) demo_enables None eq_refl eq_refl)
      as [Hall Hlen].
    destruct (examples_asked _) as [|k [|k' l]]; try discriminate.
    apply Forall_inv in Hall. now subst k.
  - destruct (bundled_clip_only_without_upload unit
                (demo_h (Some demo_upload) false) demo_lib demo_cast tt tt tt
                (sidebar_trace demo_enables)
                (upload_trace (Some demo_upload)) demo_enables
                (Some demo_upload) eq_refl eq_refl) as [_ Hlen].
    destruct (examples_asked _); [reflexivity | discriminate].
Defined.

Lemma failed_render_keeps_the_loaded_audio_witness :
  exists en up path sr t_cfg w1 w2 w3,
    run unit (stateless demo_env_engine_fails) (main demo_lib demo_cast) tt
    = (w3,
       sidebar_trace en ++ upload_trace up
         ++ load_trace up path demo_audio sr ++ shown_trace demo_audio sr
         ++ t_cfg
         ++ [ Entry (st_subheader Page ":headphones: Pedalboard output")
                (OK tt);
              Entry (Pedalboard_call demo_board demo_audio)
                (Raise "RuntimeError") ],
       Raise "RuntimeError")
    /\ run unit (stateless demo_env_engine_fails)
         (configure_effects demo_lib en sr) w1
       = (w2, t_cfg, OK demo_board).
Proof.
  apply (failed_render_keeps_the_loaded_audio unit
           (stateless demo_env_engine_fails) demo_lib demo_cast tt demo_board
           demo_audio "RuntimeError").
  find_entry.
Defined.


